(** * Session lifecycle and per-client locking of the WhatsApp web API server

    A shallow embedding of [app/main.py]: the three module-level tables
    ([drivers], [timers], [semaphores]), the request hooks, the poll callback
    and the admin sweep, written as state-passing functions over an explicit
    store, with Python exceptions as a second outcome that keeps the store
    reached so far. *)

From Stdlib Require Import Ascii String.
From stdpp Require Import gmap strings list fin_maps.

Open Scope string_scope.
Open Scope nat_scope.

(** ** Data model *)

(** Modelled from the spec: [WhatsAPIDriverStatus] is declared in the
    [webwhatsapi] package, which is imported but is not part of [app/main.py];
    the closed enumeration the specification gives is used. *)
Inductive WhatsAPIDriverStatus := Unknown | NotLoggedIn | LoggedIn.

Global Instance WhatsAPIDriverStatus_eq_dec : EqDecision WhatsAPIDriverStatus.
Proof. solve_decision. Defined.

(** Python exceptions that the modelled code can meet.  [HTTPException n] is
    what [flask.abort(n)] raises; [DriverError] stands for anything raised by
    the automation driver; [OSError] for a failing file-system call. *)
Inductive exn :=
| KeyError | AttributeError | TypeError | IndexError
| HTTPException (code : nat)
| DriverError
| OSError.

(** What the remote browser answers to the commands [main.py] sends.  [None]
    (or [false] for [quit_ok]) means the call raises.  [get_unread_reply]
    lists, per unread message group, whether [chat.send_seen()] succeeds. *)
Record Remote := {
  get_status_reply : option WhatsAPIDriverStatus;
  is_logged_in_reply : option bool;
  quit_ok : bool;
  get_unread_reply : option (list bool)
}.

(** A constructed [WhatsAPIDriver] object.  [serial] is the identity of the
    object: the number of constructions that preceded its own. *)
Record WhatsAPIDriver := {
  serial : nat;
  username : string;
  profile : string;
  remote : Remote
}.

(** [RepeatedTimer]: [function] is always [check_new_messages], [args] the
    client id.  [timer_armed] tells whether the [threading.Timer] held in
    [_timer] is pending ([true]) or cancelled ([false]). *)
Record RepeatedTimer := {
  interval : nat;
  args : string;
  timer_armed : bool;
  is_running : bool
}.

Inductive Command := CmdGetStatus | CmdIsLoggedIn | CmdQuit | CmdGetUnread | CmdSendSeen.

(** Observable actions, newest first in [trace].  [EvTimerStop c t] records
    a call of [stop()] on the timer object of client [c], with the state [t]
    in which the call leaves that object: the object may drop out of the
    timer table right afterwards, and the event is then what is left of the
    call. *)
Inductive Event :=
| EvConstruct (n : nat) (client_id : string)
| EvCommand (n : nat) (c : Command)
| EvAcquire (client_id : string) (timeout : nat) (got : bool)
| EvRelease (client_id : string)
| EvTimerStop (client_id : string) (stopped : RepeatedTimer)
| EvRmtree (path : string)
| EvView (client_id : option string).

(** The request context [flask.g].  An attribute that was never assigned is
    [None]; [g_client_id = Some None] is the attribute set to Python's
    [None] (header missing). *)
Record G := {
  g_client_id : option (option string);
  g_driver : option WhatsAPIDriver;
  g_driver_status : option WhatsAPIDriverStatus
}.

Definition g_empty : G :=
  {| g_client_id := None; g_driver := None; g_driver_status := None |}.

(** The store.  A table value [None] is Python's [None] stored under the key
    (as [timers[client] = None] does); an absent key is an absent key.  A
    [threading.Semaphore] is its counter.  [profiles] is the set of
    directories that exist; [constructed] counts driver constructions. *)
Record State := {
  drivers : gmap string WhatsAPIDriver;
  timers : gmap string (option RepeatedTimer);
  semaphores : gmap string (option nat);
  profiles : gset string;
  logger : bool;
  g : G;
  constructed : nat;
  trace : list Event
}.

(** The process environment and the world outside it: [API_KEY] and
    [SELENIUM] are the environment variables read by the module, [connect]
    answers the construction of the [n]-th driver for a client ([None]: the
    constructor raises). *)
Record Env := {
  API_KEY : option string;
  SELENIUM : option string;
  connect : string -> nat -> option Remote;
  log_dir_ok : bool
}.

(** Paths are written relative to [BASE_DIR]. *)
Definition FIREFOX_CACHE_PATH : string := "/app/app/firefox_cache/".

(** ** Outcomes and the state-and-exception monad *)

Inductive Res (A : Type) :=
| Done (a : A) (s : State)
| Raise (e : exn) (s : State).
Arguments Done {A} a s.
Arguments Raise {A} e s.

Definition M (A : Type) := State -> Res A.

Definition ret {A} (a : A) : M A := fun s => Done a s.
Definition raise {A} (e : exn) : M A := fun s => Raise e s.
Definition bind {A B} (m : M A) (k : A -> M B) : M B :=
  fun s => match m s with
           | Done a s' => k a s'
           | Raise e s' => Raise e s'
           end.

Declare Scope py_scope.
Delimit Scope py_scope with py.
Notation "x <- m ;; k" := (bind m (fun x => k))
  (at level 100, m at next level, right associativity) : py_scope.
Notation "m ;;; k" := (bind m (fun _ => k))
  (at level 100, right associativity) : py_scope.
Open Scope py_scope.

(** [try: body / except: pass] *)
Definition try_pass (body : M unit) : M unit :=
  fun s => match body s with
           | Done _ s' => Done tt s'
           | Raise _ s' => Done tt s'
           end.

(** [try: body / except: pass / finally: fin] *)
Definition try_pass_finally (body : M unit) (fin : M unit) : M unit :=
  try_pass body ;;; fin.

Definition get_state : M State := fun s => Done s s.
Definition modify (f : State -> State) : M unit := fun s => Done tt (f s).
Definition with_drivers (d : gmap string WhatsAPIDriver) (s : State) : State :=
  {| drivers := d; timers := timers s; semaphores := semaphores s;
     profiles := profiles s; logger := logger s; g := g s;
     constructed := constructed s; trace := trace s |}.
Definition with_timers (t : gmap string (option RepeatedTimer)) (s : State) : State :=
  {| drivers := drivers s; timers := t; semaphores := semaphores s;
     profiles := profiles s; logger := logger s; g := g s;
     constructed := constructed s; trace := trace s |}.
Definition with_semaphores (m : gmap string (option nat)) (s : State) : State :=
  {| drivers := drivers s; timers := timers s; semaphores := m;
     profiles := profiles s; logger := logger s; g := g s;
     constructed := constructed s; trace := trace s |}.
Definition with_profiles (p : gset string) (s : State) : State :=
  {| drivers := drivers s; timers := timers s; semaphores := semaphores s;
     profiles := p; logger := logger s; g := g s;
     constructed := constructed s; trace := trace s |}.
Definition with_logger (b : bool) (s : State) : State :=
  {| drivers := drivers s; timers := timers s; semaphores := semaphores s;
     profiles := profiles s; logger := b; g := g s;
     constructed := constructed s; trace := trace s |}.
Definition with_g (x : G) (s : State) : State :=
  {| drivers := drivers s; timers := timers s; semaphores := semaphores s;
     profiles := profiles s; logger := logger s; g := x;
     constructed := constructed s; trace := trace s |}.
Definition with_constructed (n : nat) (s : State) : State :=
  {| drivers := drivers s; timers := timers s; semaphores := semaphores s;
     profiles := profiles s; logger := logger s; g := g s;
     constructed := n; trace := trace s |}.
Definition with_event (e : Event) (s : State) : State :=
  {| drivers := drivers s; timers := timers s; semaphores := semaphores s;
     profiles := profiles s; logger := logger s; g := g s;
     constructed := constructed s; trace := e :: trace s |}.

Definition emit (e : Event) : M unit := modify (with_event e).
Definition set_drivers (d : gmap string WhatsAPIDriver) : M unit :=
  modify (with_drivers d).
Definition set_timers (t : gmap string (option RepeatedTimer)) : M unit :=
  modify (with_timers t).
Definition set_semaphores (m : gmap string (option nat)) : M unit :=
  modify (with_semaphores m).
Definition set_profiles (p : gset string) : M unit := modify (with_profiles p).
Definition set_logger (b : bool) : M unit := modify (with_logger b).
Definition set_g (x : G) : M unit := modify (with_g x).
Definition set_constructed (n : nat) : M unit := modify (with_constructed n).

(** The store an outcome ends in, whether it returned or raised. *)
Definition final {A} (r : Res A) : State :=
  match r with
  | Done _ s => s
  | Raise _ s => s
  end.

(** Python truthiness of a header value or a string argument. *)
Definition truthy (x : option string) : bool :=
  match x with
  | None => false
  | Some s => negb (String.eqb s "")
  end.

(** ** ClientLock *)

(** [threading.Semaphore.acquire(blocking=True, timeout=t)] on the stored
    object.  A positive counter is taken at once.  With the counter at zero
    the call waits for [t] seconds; the model gives the outcome of a wait
    during which no other thread releases, which is [False] (a release that
    does arrive in time is the interleaving in which that release comes
    first).  Python's [None] has no [acquire]. *)
Definition Semaphore_acquire (client_id : string) (timeout : nat) : M bool :=
  s <- get_state ;;
  match semaphores s !! client_id with
  | None => raise KeyError
  | Some None => raise AttributeError
  | Some (Some (S n)) =>
      set_semaphores (<[client_id := Some n]> (semaphores s)) ;;;
      emit (EvAcquire client_id timeout true) ;;;
      ret true
  | Some (Some O) =>
      emit (EvAcquire client_id timeout false) ;;;
      ret false
  end.

(** [threading.Semaphore.release()]: the counter goes up by one; a plain
    [Semaphore] has no upper bound. *)
Definition Semaphore_release (client_id : string) : M unit :=
  s <- get_state ;;
  match semaphores s !! client_id with
  | None => raise KeyError
  | Some None => raise AttributeError
  | Some (Some n) =>
      set_semaphores (<[client_id := Some (S n)]> (semaphores s)) ;;;
      emit (EvRelease client_id)
  end.

(** [timeout = 10], or [0] when [cancel_if_locked] *)
Definition timeout_of (cancel_if_locked : bool) : nat :=
  if cancel_if_locked then 0 else 10.

Definition acquire_semaphore (client_id : option string) (cancel_if_locked : bool)
  : M bool :=
  match client_id with
  | Some c =>
      if negb (truthy client_id) then ret false
      else
        s <- get_state ;;
        (if bool_decide (c ∈ dom (semaphores s)) then ret tt
         else set_semaphores (<[c := Some 1]> (semaphores s))) ;;;
        let timeout := timeout_of cancel_if_locked in
        val <- Semaphore_acquire c timeout ;;
        ret val
  | None => ret false
  end.

(** Returns [Some false] for Python's [False] and [None] for the implicit
    [None] at the end of the function. *)
Definition release_semaphore (client_id : option string) : M (option bool) :=
  match client_id with
  | Some c =>
      if negb (truthy client_id) then ret (Some false)
      else
        s <- get_state ;;
        (if bool_decide (c ∈ dom (semaphores s)) then Semaphore_release c
         else ret tt) ;;;
        ret None
  | None => ret (Some false)
  end.

(** ** The driver's commands *)

Definition command {A} (d : WhatsAPIDriver) (c : Command) (reply : option A) : M A :=
  emit (EvCommand (serial d) c) ;;;
  match reply with
  | Some a => ret a
  | None => raise DriverError
  end.

Definition drv_get_status (d : WhatsAPIDriver) : M WhatsAPIDriverStatus :=
  command d CmdGetStatus (get_status_reply (remote d)).
Definition drv_is_logged_in (d : WhatsAPIDriver) : M bool :=
  command d CmdIsLoggedIn (is_logged_in_reply (remote d)).
Definition drv_quit (d : WhatsAPIDriver) : M unit :=
  command d CmdQuit (if quit_ok (remote d) then Some tt else None).
Definition drv_get_unread (d : WhatsAPIDriver) : M (list bool) :=
  command d CmdGetUnread (get_unread_reply (remote d)).
(** [message_group.chat.send_seen()] for a group whose call succeeds or not. *)
Definition drv_send_seen (d : WhatsAPIDriver) (ok : bool) : M unit :=
  command d CmdSendSeen (if ok then Some tt else None).

(** ** RepeatedTimer *)

Definition RepeatedTimer_start (t : RepeatedTimer) : RepeatedTimer :=
  if negb (is_running t)
  then {| interval := interval t; args := args t;
          timer_armed := true; is_running := true |}
  else t.

Definition RepeatedTimer_stop (t : RepeatedTimer) : RepeatedTimer :=
  {| interval := interval t; args := args t;
     timer_armed := false; is_running := false |}.

Definition RepeatedTimer_init (i : nat) (a : string) : RepeatedTimer :=
  RepeatedTimer_start
    {| interval := i; args := a; timer_armed := false; is_running := false |}.

(** [timers[client_id].stop()]: a missing key and a stored [None] raise. *)
Definition timers_stop (client_id : string) : M unit :=
  s <- get_state ;;
  match timers s !! client_id with
  | None => raise KeyError
  | Some None => raise AttributeError
  | Some (Some t) =>
      set_timers (<[client_id := Some (RepeatedTimer_stop t)]> (timers s)) ;;;
      emit (EvTimerStop client_id (RepeatedTimer_stop t))
  end.

(** ** SessionRegistry *)

Definition init_driver (env : Env) (client_id : string) : M WhatsAPIDriver :=
  let profile_path := FIREFOX_CACHE_PATH ++ client_id in
  s <- get_state ;;
  (if bool_decide (profile_path ∈ profiles s) then ret tt
   else set_profiles ({[ profile_path ]} ∪ profiles s)) ;;;
  match SELENIUM env with
  | None => raise KeyError
  | Some _ =>
      s <- get_state ;;
      let n := constructed s in
      set_constructed (S n) ;;;
      emit (EvConstruct n client_id) ;;;
      match connect env client_id n with
      | None => raise DriverError
      | Some r =>
          ret {| serial := n; username := client_id;
                 profile := profile_path; remote := r |}
      end
  end.

Definition drivers_get (client_id : string) : M WhatsAPIDriver :=
  s <- get_state ;;
  match drivers s !! client_id with
  | Some d => ret d
  | None => raise KeyError
  end.

Definition drivers_set (client_id : string) (d : WhatsAPIDriver) : M unit :=
  s <- get_state ;;
  set_drivers (<[client_id := d]> (drivers s)).

Definition init_client (env : Env) (client_id : string) : M WhatsAPIDriver :=
  s <- get_state ;;
  (if bool_decide (client_id ∈ dom (drivers s)) then ret tt
   else d <- init_driver env client_id ;; drivers_set client_id d) ;;;
  drivers_get client_id.

(** The clean-up block that lines 185-191 and [kill_clients] both run
    under [try: ... except: pass]. *)
Definition cleanup_timer_and_lock (client_id : string) : M unit :=
  try_pass (
    timers_stop client_id ;;;
    s <- get_state ;;
    set_timers (<[client_id := None]> (timers s)) ;;;
    release_semaphore (Some client_id) ;;;
    s <- get_state ;;
    set_semaphores (<[client_id := None]> (semaphores s))).

(** [drivers.pop(client).quit()] *)
Definition drivers_pop_quit (client_id : string) : M unit :=
  d <- drivers_get client_id ;;
  s <- get_state ;;
  set_drivers (delete client_id (drivers s)) ;;;
  drv_quit d.

(** [shutil.rmtree(pth)]: a directory that does not exist makes it raise. *)
Definition rmtree (pth : string) : M unit :=
  s <- get_state ;;
  emit (EvRmtree pth) ;;;
  if bool_decide (pth ∈ profiles s)
  then set_profiles (profiles s ∖ {[ pth ]})
  else raise OSError.

(** The function that lines 177-195 define under the name
    [delete_client].  Line 439 defines the view of [DELETE /client] under the
    same name, so once the module is loaded the name no longer refers to
    this function and no call reaches it; it is kept here as what the view
    was written to call.  The path that it removes is built from
    [g.client_id]. *)
Definition delete_client_shadowed (client_id : string) (preserve_cache : bool)
  : M unit :=
  s <- get_state ;;
  (if bool_decide (client_id ∈ dom (drivers s)) then
     drivers_pop_quit client_id ;;;
     cleanup_timer_and_lock client_id
   else ret tt) ;;;
  if negb preserve_cache then
    s <- get_state ;;
    match g_client_id (g s) with
    | None => raise AttributeError
    | Some None => raise TypeError
    | Some (Some c) => rmtree (FIREFOX_CACHE_PATH ++ c)
    end
  else ret tt.

(** ** PollingScheduler *)

Definition init_timer (client_id : string) : M unit :=
  s <- get_state ;;
  match timers s !! client_id with
  | Some (Some t) =>
      set_timers (<[client_id := Some (RepeatedTimer_start t)]> (timers s))
  | _ =>
      set_timers (<[client_id := Some (RepeatedTimer_init 2 client_id)]> (timers s))
  end.

Fixpoint send_seen_all (d : WhatsAPIDriver) (res : list bool) : M unit :=
  match res with
  | [] => ret tt
  | ok :: rest => drv_send_seen d ok ;;; send_seen_all d rest
  end.

(** The pre-check of [check_new_messages]: [true] when the callback must stop
    the timer and return.  A driver object is always truthy. *)
Definition poll_precheck_fails (client_id : string) : M bool :=
  s <- get_state ;;
  match drivers s !! client_id with
  | None => ret true
  | Some d => b <- drv_is_logged_in d ;; ret (negb b)
  end.

Definition check_new_messages (client_id : string) : M unit :=
  stop <- poll_precheck_fails client_id ;;
  if stop : bool then timers_stop client_id
  else
    got <- acquire_semaphore (Some client_id) true ;;
    if negb got then ret tt
    else
      try_pass_finally
        (d <- drivers_get client_id ;;
         res <- drv_get_unread d ;;
         send_seen_all d res ;;;
         release_semaphore (Some client_id) ;;;
         (* [if res: print(res)] changes nothing in the store *)
         ret tt)
        (release_semaphore (Some client_id) ;;; ret tt).

(** [RepeatedTimer._run], for the timer stored under [client_id]:
    [is_running] is cleared, [start] re-arms, then the function is called. *)
Definition RepeatedTimer_run (client_id : string) : M unit :=
  s <- get_state ;;
  match timers s !! client_id with
  | Some (Some t) =>
      let t' := RepeatedTimer_start
                  {| interval := interval t; args := args t;
                     timer_armed := timer_armed t; is_running := false |} in
      set_timers (<[client_id := Some t']> (timers s)) ;;;
      check_new_messages (args t)
  | _ => ret tt
  end.

(** ** Status report *)

Record ClientInfo := {
  is_alive : bool;
  is_logged_in : bool;
  is_timer : bool
}.

Definition get_client_info (client_id : string) : M (option ClientInfo) :=
  s <- get_state ;;
  match drivers s !! client_id with
  | None => ret None
  | Some d =>
      driver_status <- drv_get_status d ;;
      let alive :=
        bool_decide (driver_status = NotLoggedIn)
        || bool_decide (driver_status = LoggedIn) in
      let logged := bool_decide (driver_status = LoggedIn) in
      s <- get_state ;;
      match timers s !! client_id with
      | None => raise KeyError
      | Some None =>
          ret (Some {| is_alive := alive; is_logged_in := logged;
                       is_timer := false |})
      | Some (Some t) =>
          ret (Some {| is_alive := alive; is_logged_in := logged;
                       is_timer := is_running t |})
      end
  end.

(** ** RequestGate *)

(** [str.split(sep)] for a one-character separator. *)
Fixpoint split_from (sep : Ascii.ascii) (cur : string) (s : string) : list string :=
  match s with
  | EmptyString => [cur]
  | String ch rest =>
      if Ascii.eqb ch sep then cur :: split_from sep "" rest
      else split_from sep (cur ++ String ch "") rest
  end.
Definition split (sep : Ascii.ascii) (s : string) : list string := split_from sep "" s.

Record Request := {
  url_rule : option string;
  header_auth_key : option string;
  header_client_id : option string
}.

(** [request.url_rule.rule.split("/")[1]] *)
Definition rule_parent_of (rule : string) : option string :=
  split "/"%char rule !! 1.

Definition abort {A} (code : nat) : M A := raise (HTTPException code).

(** [create_logger()]: opening the log file fails when its directory is
    missing. *)
Definition create_logger (env : Env) : M unit :=
  if log_dir_ok env then set_logger true else raise OSError.

Definition set_g_client_id (c : option string) : M unit :=
  s <- get_state ;;
  set_g {| g_client_id := Some c; g_driver := g_driver (g s);
           g_driver_status := g_driver_status (g s) |}.
Definition set_g_driver (d : WhatsAPIDriver) : M unit :=
  s <- get_state ;;
  set_g {| g_client_id := g_client_id (g s); g_driver := Some d;
           g_driver_status := g_driver_status (g s) |}.
Definition set_g_driver_status (x : WhatsAPIDriverStatus) : M unit :=
  s <- get_state ;;
  set_g {| g_client_id := g_client_id (g s); g_driver := g_driver (g s);
           g_driver_status := Some x |}.

(** [API_KEY and auth_key != API_KEY] *)
Definition auth_rejected (env : Env) (auth_key : option string) : bool :=
  truthy (API_KEY env) && negb (bool_decide (auth_key = API_KEY env)).

Definition is_live_status (x : WhatsAPIDriverStatus) : bool :=
  bool_decide (x = NotLoggedIn) || bool_decide (x = LoggedIn).

(** Lines 383-401, for a request that is not under [/admin].  [client_id] is
    [g.client_id], which line 377 has checked to be a non-empty string. *)
Definition ensure_session (env : Env) (client_id : string) : M unit :=
  s <- get_state ;;
  (if bool_decide (client_id ∈ dom (drivers s)) then ret tt
   else d <- init_client env client_id ;; drivers_set client_id d) ;;;
  d <- drivers_get client_id ;;
  set_g_driver d ;;;
  set_g_driver_status Unknown ;;;
  st <- drv_get_status d ;;
  set_g_driver_status st ;;;
  (if negb (is_live_status st) then
     d' <- init_client env client_id ;;
     drivers_set client_id d' ;;;
     st' <- drv_get_status d ;;
     set_g_driver_status st'
   else ret tt) ;;;
  init_timer client_id.

Definition before_request (env : Env) (request : Request) : M unit :=
  match url_rule request with
  | None => abort 404
  | Some rule =>
      s <- get_state ;;
      (if logger s then ret tt else create_logger env) ;;;
      let auth_key := header_auth_key request in
      set_g_client_id (header_client_id request) ;;;
      match rule_parent_of rule with
      | None => raise IndexError
      | Some rule_parent =>
          if auth_rejected env auth_key then abort 401
          else
            let client_id := header_client_id request in
            let admin := String.eqb rule_parent "admin" in
            if negb (truthy client_id) && negb admin then abort 400
            else
              acquire_semaphore client_id false ;;;
              if negb admin then
                match client_id with
                | Some c => ensure_session env c
                | None => raise TypeError
                end
              else ret tt
      end
  end.

Definition after_request {A} (r : A) : M A :=
  s <- get_state ;;
  match g_client_id (g s) with
  | Some c =>
      (if truthy c then release_semaphore c ;;; ret tt else ret tt) ;;;
      ret r
  | None => ret r
  end.

(** ** AdminOperations *)

Inductive Response :=
| JsonEmptyList
| JsonClients (l : list (string * option ClientInfo))
| JsonError (msg : string)
| JsonFailure (e : exn).

Fixpoint client_infos (l : list string) : M (list (string * option ClientInfo)) :=
  match l with
  | [] => ret []
  | c :: rest =>
      i <- get_client_info c ;;
      r <- client_infos rest ;;
      ret ((c, i) :: r)
  end.

(** [list(drivers.keys())].  The keys come in the order of the map's
    enumeration, where Python gives them in insertion order.  The turns of
    a loop over the keys are independent of one another, so the order shows
    in the final store only when a driver call raises in the middle of the
    loop and cuts it short. *)
Definition drivers_keys (s : State) : list string := (map_to_list (drivers s)).*1.

Definition get_active_clients : M Response :=
  s <- get_state ;;
  match drivers_keys s with
  | [] => ret JsonEmptyList
  | ks => r <- client_infos ks ;; ret (JsonClients r)
  end.

(** [kill_dead and not drivers[client].is_logged_in() or client in clients] *)
Definition kill_condition (kill_dead : bool) (clients : list string)
    (client : string) : M bool :=
  dead <- (if kill_dead
           then d <- drivers_get client ;; b <- drv_is_logged_in d ;; ret (negb b)
           else ret false) ;;
  if dead : bool then ret true else ret (bool_decide (client ∈ clients)).

(** The body of the [for client in list(drivers.keys())] loop. *)
Definition kill_one (kill_dead : bool) (clients : list string)
    (client : string) : M unit :=
  k <- kill_condition kill_dead clients client ;;
  if k : bool then
    drivers_pop_quit client ;;;
    cleanup_timer_and_lock client
  else ret tt.

Fixpoint kill_loop (kill_dead : bool) (clients : list string)
    (keys : list string) : M unit :=
  match keys with
  | [] => ret tt
  | client :: rest =>
      kill_one kill_dead clients client ;;;
      kill_loop kill_dead clients rest
  end.

(** [form_clients] is [request.form.get("clients")], [arg_kill_dead] is
    [request.args.get("kill_dead")] ([None] when the parameter is missing). *)
Definition kill_clients (form_clients arg_kill_dead : option string) : M Response :=
  match form_clients with
  | None => raise AttributeError
  | Some cs =>
      let clients := split ","%char cs in
      let kill_dead :=
        truthy arg_kill_dead
        && bool_decide (arg_kill_dead ∈ [Some "true"; Some "1"]) in
      if negb kill_dead && bool_decide (clients = []) then
        ret (JsonError "no clients provided")
      else
        s <- get_state ;;
        kill_loop kill_dead clients (drivers_keys s) ;;;
        get_active_clients
  end.

(** ** The request pipeline around a view function

    Flask gives each request an empty [flask.g], runs the [before_request]
    hook, then the view unless the hook raised, turns an exception into an
    error response, and runs the [after_request] hook on whatever response
    came out. *)
Definition preprocess_request (env : Env) (request : Request) : M unit :=
  set_g g_empty ;;; before_request env request.

Definition dispatch (env : Env) (request : Request) (view : M Response) : M Response :=
  fun s =>
    match (preprocess_request env request ;;; view) s with
    | Done r s' => after_request r s'
    | Raise e s' => after_request (JsonFailure e) s'
    end.

(** ** Views, input validation and the remaining admin operation *)

(** The [login_required] decorator around a view [f]. *)
Definition login_required (f : M Response) : M Response :=
  s <- get_state ;;
  match g_driver_status (g s) with
  | None => raise AttributeError
  | Some st =>
      if negb (bool_decide (st = LoggedIn))
      then ret (JsonError "client is not logged in")
      else f
  end.

(** [delete_client] as the loaded module binds it: the view of
    [DELETE /client] (lines 438-443), which takes no argument.
    [arg_preserve_cache] is [request.args.get("preserve_cache")].  The body
    calls [delete_client(g.client_id, preserve_cache)]: the name is the view
    itself, so after the arguments have been evaluated the call raises
    [TypeError], and [jsonify({"Success": True})] is never reached. *)
Definition delete_client (arg_preserve_cache : option string) : M Response :=
  s <- get_state ;;
  match g_client_id (g s) with
  | None => raise AttributeError
  | Some _ => raise TypeError
  end.

Definition ALLOWED_EXTENSIONS : list string :=
  ["avi"; "mp4"; "png"; "jpg"; "jpeg"; "gif"; "mp3"; "doc"; "docx"; "pdf"].

(** ["." in filename], for a one-character needle. *)
Fixpoint str_contains (ch : Ascii.ascii) (s : string) : bool :=
  match s with
  | EmptyString => false
  | String c rest => Ascii.eqb c ch || str_contains ch rest
  end.

(** [str.rpartition(sep)] without the separator: what stands before and
    after the last [sep], when there is one. *)
Fixpoint rpartition (sep : Ascii.ascii) (s : string) : option (string * string) :=
  match s with
  | EmptyString => None
  | String c rest =>
      match rpartition sep rest with
      | Some (before, after) => Some (String c before, after)
      | None => if Ascii.eqb c sep then Some (EmptyString, rest) else None
      end
  end.

(** [str.rsplit(sep, 1)] *)
Definition rsplit1 (sep : Ascii.ascii) (s : string) : list string :=
  match rpartition sep s with
  | Some (before, after) => [before; after]
  | None => [s]
  end.

(** [str.lower()] on the ASCII letters; other bytes are kept. *)
Definition lower_ascii (c : Ascii.ascii) : Ascii.ascii :=
  let n := Ascii.nat_of_ascii c in
  if (65 <=? n) && (n <=? 90) then Ascii.ascii_of_nat (n + 32) else c.

Fixpoint lower (s : string) : string :=
  match s with
  | EmptyString => EmptyString
  | String c rest => String (lower_ascii c) (lower rest)
  end.

Definition allowed_file (filename : string) : bool :=
  str_contains "."%char filename
  && match rsplit1 "."%char filename !! 1 with
     | Some ext => bool_decide (lower ext ∈ ALLOWED_EXTENSIONS)
     | None => false
     end.

Definition is_digit (c : Ascii.ascii) : bool :=
  let n := Ascii.nat_of_ascii c in (48 <=? n) && (n <=? 57).

(** [re.sub(r'[^0-9]', '', number)] *)
Fixpoint digits_only (s : string) : string :=
  match s with
  | EmptyString => EmptyString
  | String c rest =>
      if is_digit c then String c (digits_only rest) else digits_only rest
  end.

(** Lines 469-475 of [new_chat]: the phone number that is handed to the
    driver.  [number] is [request.form.get("number")]. *)
Definition new_chat_number (number : option string) : M string :=
  match number with
  | Some raw =>
      if negb (truthy number) then abort 400
      else
        match digits_only raw with
        | EmptyString => raise IndexError
        | String c rest =>
            if Ascii.eqb c "0"%char then abort 400
            else ret (String c rest)
        end
  | None => abort 400
  end.

(** [result[client_id] = info] on a dictionary kept in insertion order. *)
Fixpoint dict_set {V} (k : string) (v : V) (l : list (string * V))
  : list (string * V) :=
  match l with
  | [] => [(k, v)]
  | (k', v') :: rest =>
      if String.eqb k k' then (k, v) :: rest else (k', v') :: dict_set k v rest
  end.

Fixpoint run_loop (env : Env) (ids : list string)
    (result : list (string * option ClientInfo))
  : M (list (string * option ClientInfo)) :=
  match ids with
  | [] => ret result
  | client_id :: rest =>
      s <- get_state ;;
      (if bool_decide (client_id ∈ dom (drivers s)) then ret tt
       else init_client env client_id ;;; init_timer client_id) ;;;
      i <- get_client_info client_id ;;
      run_loop env rest (dict_set client_id i result)
  end.

(** [run_clients], the view of [PUT /admin/clients]; [form_clients] is
    [request.form.get("clients")]. *)
Definition run_clients (env : Env) (form_clients : option string) : M Response :=
  match form_clients with
  | Some cs =>
      if negb (truthy form_clients) then ret (JsonError "no clients provided")
      else
        r <- run_loop env (split ","%char cs) [] ;;
        ret (JsonClients r)
  | None => ret (JsonError "no clients provided")
  end.

(** ** Reading the trace *)

Definition is_release (c : string) (e : Event) : bool :=
  match e with
  | EvRelease c' => String.eqb c c'
  | _ => false
  end.

Definition is_construct (e : Event) : bool :=
  match e with
  | EvConstruct _ _ => true
  | _ => false
  end.

(** Releases of a client's lock recorded in a trace. *)
Definition releases (c : string) (tr : list Event) : nat :=
  length (List.filter (is_release c) tr).

(** Driver constructions recorded in a trace. *)
Definition constructions (tr : list Event) : nat :=
  length (List.filter is_construct tr).

(** The events that [s'] has seen since [s], oldest first. *)
Definition since (s s' : State) : list Event :=
  reverse (take (length (trace s') - length (trace s)) (trace s')).

(** A store after a run that only recorded events [new] (oldest last). *)
Definition with_events (new : list Event) (s : State) : State :=
  foldr with_event s new.

Definition is_status_query (e : Event) : Prop :=
  ∃ n, e = EvCommand n CmdGetStatus.

(** ** Well-formed stores *)



(** The client has no session, or its driver reports that it is not logged
    in. *)
Definition not_logged_in (c : string) (s : State) : Prop :=
  drivers s !! c = None ∨
  ∃ d, drivers s !! c = Some d ∧ is_logged_in_reply (remote d) = Some false.

(** [s'] has the lock table of [s], and every session of [s] is still
    there with the same handle and the same timer entry. *)
Definition keeps_sessions (s s' : State) : Prop :=
  semaphores s' = semaphores s ∧
  ∀ k d, drivers s !! k = Some d →
         drivers s' !! k = Some d ∧ timers s' !! k = timers s !! k.

(** ** Concrete stores and environments used in the examples *)

Module Fixtures.

Definition r_logged_in : Remote :=
  {| get_status_reply := Some LoggedIn; is_logged_in_reply := Some true;
     quit_ok := true; get_unread_reply := Some [] |}.
Definition r_qr : Remote :=
  {| get_status_reply := Some NotLoggedIn; is_logged_in_reply := Some false;
     quit_ok := true; get_unread_reply := None |}.
Definition r_closed : Remote :=
  {| get_status_reply := Some Unknown; is_logged_in_reply := Some false;
     quit_ok := true; get_unread_reply := None |}.
Definition r_stuck : Remote :=
  {| get_status_reply := Some LoggedIn; is_logged_in_reply := Some true;
     quit_ok := false; get_unread_reply := Some [] |}.

(** An environment in which every construction yields a logged-in browser. *)
Definition env0 : Env :=
  {| API_KEY := None; SELENIUM := Some "http://hub:4444/wd/hub";
     connect := fun _ _ => Some r_logged_in; log_dir_ok := true |}.

Definition driver_of (n : nat) (c : string) (r : Remote) : WhatsAPIDriver :=
  {| serial := n; username := c; profile := FIREFOX_CACHE_PATH ++ c;
     remote := r |}.

Definition st_empty : State :=
  {| drivers := ∅; timers := ∅; semaphores := ∅; profiles := ∅;
     logger := false; g := g_empty; constructed := 0; trace := [] |}.

(** One client ["a"] with browser [r], a running timer and a lock whose
    counter is [n]. *)
Definition st_one (r : Remote) (n : nat) : State :=
  {| drivers := {[ "a" := driver_of 0 "a" r ]};
     timers := {[ "a" := Some (RepeatedTimer_init 2 "a") ]};
     semaphores := {[ "a" := Some n ]};
     profiles := {[ FIREFOX_CACHE_PATH ++ "a" ]};
     logger := true;
     g := {| g_client_id := Some (Some "a"); g_driver := None;
             g_driver_status := None |};
     constructed := 1; trace := [] |}.

(** ["a"] is logged in, ["b"] still shows the QR code. *)
Definition st_two : State :=
  {| drivers := {[ "a" := driver_of 0 "a" r_logged_in;
                   "b" := driver_of 1 "b" r_qr ]};
     timers := {[ "a" := Some (RepeatedTimer_init 2 "a");
                  "b" := Some (RepeatedTimer_init 2 "b") ]};
     semaphores := {[ "a" := Some 1; "b" := Some 1 ]};
     profiles := {[ FIREFOX_CACHE_PATH ++ "a"; FIREFOX_CACHE_PATH ++ "b" ]};
     logger := true; g := g_empty; constructed := 2; trace := [] |}.

(** No session for ["b"], whose profile directory is still there; the
    request at hand is one of ["b"]. *)
Definition st_orphan : State :=
  {| drivers := ∅; timers := ∅; semaphores := ∅;
     profiles := {[ FIREFOX_CACHE_PATH ++ "b" ]};
     logger := true;
     g := {| g_client_id := Some (Some "b"); g_driver := None;
             g_driver_status := None |};
     constructed := 0; trace := [] |}.

Definition client_request (rule c : string) : Request :=
  {| url_rule := Some rule; header_auth_key := None;
     header_client_id := Some c |}.
Definition admin_request : Request :=
  {| url_rule := Some "/admin/clients"; header_auth_key := None;
     header_client_id := None |}.

(** A view function that only records that it ran. *)
Definition view_stub (c : option string) : M Response :=
  emit (EvView c) ;;; ret JsonEmptyList.

(** The poll callback of client ["a"] firing while a request of the same
    client is in its view function. *)
Definition request_with_poll_inside : M Response :=
  dispatch env0 (client_request "/chats" "a")
    (view_stub (Some "a") ;;; check_new_messages "a" ;;; ret JsonEmptyList).

End Fixtures.

(** The status record that [get_client_info] builds from a status and the
    client's timer entry. *)
Definition info_of (st : WhatsAPIDriverStatus)
    (tm : option (option RepeatedTimer)) : ClientInfo :=
  {| is_alive := is_live_status st;
     is_logged_in := bool_decide (st = LoggedIn);
     is_timer := match tm with
                 | Some (Some t) => is_running t
                 | _ => false
                 end |}.

(** ** Stores that the server can reach and that are not regular *)



(** A logged-in browser whose [get_unread] raises. *)
Definition r_unread_fails : Remote :=
  {| get_status_reply := Some LoggedIn; is_logged_in_reply := Some true;
     quit_ok := true; get_unread_reply := None |}.

(** A logged-in browser with an unread batch of two groups, the second of
    which cannot be marked as seen. *)
Definition r_seen_fails : Remote :=
  {| get_status_reply := Some LoggedIn; is_logged_in_reply := Some true;
     quit_ok := true; get_unread_reply := Some [true; false] |}.




(** ** Basic facts about the monad and the lock table *)

Ltac run :=
  cbv [bind ret raise get_state modify emit set_drivers set_timers
       set_semaphores set_profiles set_logger set_g set_constructed
       try_pass try_pass_finally abort];
  cbn beta iota delta [negb andb orb final].

Lemma truthy_Some (c : string) : c ≠ "" → truthy (Some c) = true.
Proof.
  intros Hc. unfold truthy. apply negb_true_iff, String.eqb_neq. exact Hc.
Qed.

Lemma truthy_false_inv (x : option string) :
  truthy x = false → x = None ∨ x = Some "".
Proof.
  destruct x as [c|]; [|by left]. unfold truthy.
  intros H. apply negb_false_iff, String.eqb_eq in H. right. by subst.
Qed.

Lemma acquire_semaphore_falsy (x : option string) (b : bool) (s : State) :
  truthy x = false → acquire_semaphore x b s = Done false s.
Proof.
  intros H. unfold acquire_semaphore. destruct x as [c|]; [|done].
  by rewrite H.
Qed.

Lemma release_semaphore_falsy (x : option string) (s : State) :
  truthy x = false → release_semaphore x s = Done (Some false) s.
Proof.
  intros H. unfold release_semaphore. destruct x as [c|]; [|done].
  by rewrite H.
Qed.

(** Projections of updated stores. *)
Ltac fields :=
  cbn [drivers timers semaphores profiles logger g constructed trace
       with_drivers with_timers with_semaphores with_profiles with_logger
       with_g with_constructed with_event].

Lemma dom_lookup_bool {V} (m : gmap string V) (c : string) :
  bool_decide (c ∈ dom m) = bool_decide (is_Some (m !! c)).
Proof. apply bool_decide_ext, elem_of_dom. Qed.

Lemma release_semaphore_absent (c : string) (s : State) :
  c ≠ "" → semaphores s !! c = None →
  release_semaphore (Some c) s = Done None s.
Proof.
  intros Hc H. unfold release_semaphore. rewrite (truthy_Some c Hc). run.
  rewrite dom_lookup_bool, H. rewrite bool_decide_eq_false_2; [done|].
  by intros [? ?].
Qed.

Lemma release_semaphore_present (c : string) (n : nat) (s : State) :
  c ≠ "" → semaphores s !! c = Some (Some n) →
  release_semaphore (Some c) s =
  Done None (with_event (EvRelease c)
               (with_semaphores (<[c := Some (S n)]> (semaphores s)) s)).
Proof.
  intros Hc H. unfold release_semaphore. rewrite (truthy_Some c Hc). run.
  rewrite dom_lookup_bool, H. rewrite bool_decide_eq_true_2; [|by eexists].
  unfold Semaphore_release. run. by rewrite H.
Qed.

Lemma release_semaphore_cleared (c : string) (s : State) :
  c ≠ "" → semaphores s !! c = Some None →
  release_semaphore (Some c) s = Raise AttributeError s.
Proof.
  intros Hc H. unfold release_semaphore. rewrite (truthy_Some c Hc). run.
  rewrite dom_lookup_bool, H. rewrite bool_decide_eq_true_2; [|by eexists].
  unfold Semaphore_release. run. by rewrite H.
Qed.

Lemma acquire_semaphore_absent (c : string) (b : bool) (s : State) :
  c ≠ "" → semaphores s !! c = None →
  acquire_semaphore (Some c) b s =
  Done true (with_event (EvAcquire c (timeout_of b) true)
               (with_semaphores (<[c := Some 0]> (semaphores s)) s)).
Proof.
  intros Hc H. unfold acquire_semaphore. rewrite (truthy_Some c Hc). run.
  rewrite dom_lookup_bool, H. rewrite bool_decide_eq_false_2; [|by intros [? ?]].
  unfold Semaphore_acquire. run. cbn. rewrite lookup_insert_eq.
  unfold with_event, with_semaphores; cbn. by rewrite insert_insert_eq.
Qed.

Lemma acquire_semaphore_free (c : string) (b : bool) (n : nat) (s : State) :
  c ≠ "" → semaphores s !! c = Some (Some (S n)) →
  acquire_semaphore (Some c) b s =
  Done true (with_event (EvAcquire c (timeout_of b) true)
               (with_semaphores (<[c := Some n]> (semaphores s)) s)).
Proof.
  intros Hc H. unfold acquire_semaphore. rewrite (truthy_Some c Hc). run.
  rewrite dom_lookup_bool, H. rewrite bool_decide_eq_true_2; [|by eexists].
  unfold Semaphore_acquire. run. by rewrite H.
Qed.

Lemma acquire_semaphore_held (c : string) (b : bool) (s : State) :
  c ≠ "" → semaphores s !! c = Some (Some 0) →
  acquire_semaphore (Some c) b s =
  Done false (with_event (EvAcquire c (timeout_of b) false) s).
Proof.
  intros Hc H. unfold acquire_semaphore. rewrite (truthy_Some c Hc). run.
  rewrite dom_lookup_bool, H. rewrite bool_decide_eq_true_2; [|by eexists].
  unfold Semaphore_acquire. run. by rewrite H.
Qed.

Lemma acquire_semaphore_cleared (c : string) (b : bool) (s : State) :
  c ≠ "" → semaphores s !! c = Some None →
  acquire_semaphore (Some c) b s = Raise AttributeError s.
Proof.
  intros Hc H. unfold acquire_semaphore. rewrite (truthy_Some c Hc). run.
  rewrite dom_lookup_bool, H. rewrite bool_decide_eq_true_2; [|by eexists].
  unfold Semaphore_acquire. run. by rewrite H.
Qed.

(** ** ClientLock: absent and empty client ids *)

(** C10: lock acquire with an absent or empty client id returns [False] and
    leaves the store as it is, release with an absent or empty client id
    returns [False] and leaves the store as it is, and a request under
    [/admin] that carries such a client id passes the pre-request hook with
    the lock table and the trace unchanged (no acquisition), after which the
    post-request hook changes nothing either (no release). *)
Theorem falsy_client_id_never_touches_locks (x : option string) :
  x = None ∨ x = Some "" →
  (∀ b s, acquire_semaphore x b s = Done false s) ∧
  (∀ s, release_semaphore x s = Done (Some false) s) ∧
  (∀ env request rule s,
     header_client_id request = x →
     url_rule request = Some rule →
     rule_parent_of rule = Some "admin" →
     let s' := final (preprocess_request env request s) in
     semaphores s' = semaphores s ∧ trace s' = trace s ∧
     ∀ r : Response, after_request r s' = Done r s').
Proof.
  intros Hx.
  assert (Hf : truthy x = false) by (destruct Hx; by subst).
  split; [|split].
  - intros b s. by apply acquire_semaphore_falsy.
  - intros s. by apply release_semaphore_falsy.
  - intros env request rule s Hid Hrule Hadmin.
    unfold preprocess_request, before_request. rewrite Hrule, Hadmin, Hid. run.
    cbn [logger with_g]. unfold create_logger.
    assert (Hafter : ∀ (r : Response) s0,
               g_client_id (g s0) = Some x → after_request r s0 = Done r s0).
    { intros r s0 Hg. unfold after_request. run. rewrite Hg, Hf. by run. }
    destruct (logger s) eqn:Hlog; run.
    + unfold set_g_client_id. run. cbn [g with_g].
      destruct (auth_rejected env (header_auth_key request)); run.
      * repeat split; try done; try (intros r; by apply Hafter).
      * rewrite Hf. cbn. rewrite (acquire_semaphore_falsy x false _ Hf). run.
        repeat split; try done; try (intros r; by apply Hafter).
    + destruct (log_dir_ok env); run.
      * unfold set_g_client_id. run. cbn [g with_g with_logger].
        destruct (auth_rejected env (header_auth_key request)); run.
        -- repeat split; try done; try (intros r; by apply Hafter).
        -- rewrite Hf. cbn. rewrite (acquire_semaphore_falsy x false _ Hf). run.
           repeat split; try done; try (intros r; by apply Hafter).
      * repeat split; try done; try (intros r; unfold after_request; by run).
Qed.

Lemma falsy_client_id_never_touches_locks_witness :
  acquire_semaphore None true Fixtures.st_two = Done false Fixtures.st_two ∧
  semaphores (final (preprocess_request Fixtures.env0 Fixtures.admin_request
                       Fixtures.st_two))
  = semaphores Fixtures.st_two.
Proof.
  destruct (falsy_client_id_never_touches_locks None (or_introl eq_refl))
    as (Ha & _ & Hadm).
  split; [apply Ha|].
  apply (Hadm Fixtures.env0 Fixtures.admin_request "/admin/clients"
           Fixtures.st_two); reflexivity.
Defined.

(** ** SessionRegistry: [init_client] *)

Lemma init_client_registered (env : Env) (c : string) (d : WhatsAPIDriver)
    (s : State) :
  drivers s !! c = Some d → init_client env c s = Done d s.
Proof.
  intros H. unfold init_client. run.
  rewrite dom_lookup_bool, H, bool_decide_eq_true_2 by (by eexists).
  unfold drivers_get. run. by rewrite H.
Qed.

Lemma init_client_stores (env : Env) (c : string) (d : WhatsAPIDriver)
    (s s1 : State) :
  init_client env c s = Done d s1 →
  drivers s1 !! c = Some d ∧ constructed s1 ≤ S (constructed s).
Proof.
  unfold init_client. run. rewrite dom_lookup_bool.
  destruct (drivers s !! c) as [d0|] eqn:Hd.
  - rewrite bool_decide_eq_true_2 by (by eexists).
    unfold drivers_get. run. rewrite Hd. intros [= <- <-]. split; [done|lia].
  - rewrite bool_decide_eq_false_2 by (by intros [? ?]).
    unfold init_driver, drivers_set, drivers_get. run.
    destruct (bool_decide _); run;
      (destruct (SELENIUM env); run; [|done]);
      (destruct (connect env c _); run; [|done]);
      cbn; rewrite lookup_insert_eq; intros [= <- <-]; cbn;
      (split; [by rewrite lookup_insert_eq | lia]).
Qed.

Lemma init_client_returns (env : Env) (c : string) (s : State) :
  is_Some (drivers s !! c) ∨
  (is_Some (SELENIUM env) ∧ is_Some (connect env c (constructed s))) →
  ∃ d s1, init_client env c s = Done d s1.
Proof.
  destruct (drivers s !! c) as [d|] eqn:Hd.
  { intros _. exists d, s. by apply init_client_registered. }
  intros [[? [=]]|[[u Hu] [r Hr]]].
  unfold init_client, init_driver, drivers_set, drivers_get. run.
  rewrite dom_lookup_bool, Hd, bool_decide_eq_false_2 by (by intros [? ?]).
  rewrite Hu.
  destruct (bool_decide _); run; cbn; rewrite Hr; run; cbn;
    rewrite lookup_insert_eq; by eexists _, _.
Qed.

(** C7: when a first call of [init_client] for a client id returns a handle,
    a second call on the store the first one left returns that very handle
    (same object identity [serial], taken from the registry) and leaves the
    store, with its construction counter and its trace, exactly as it was:
    over the two calls the driver is constructed at most once.  The first
    call does return whenever the client is registered already or the
    environment lets the construction succeed. *)
Theorem init_client_idempotent (env : Env) (c : string) (s : State) :
  (∀ d s1, init_client env c s = Done d s1 →
           init_client env c s1 = Done d s1 ∧
           drivers s1 !! c = Some d ∧
           constructed s1 ≤ S (constructed s)) ∧
  (is_Some (drivers s !! c) ∨
   (is_Some (SELENIUM env) ∧ is_Some (connect env c (constructed s))) →
   ∃ d s1, init_client env c s = Done d s1 ∧
           init_client env c s1 = Done d s1).
Proof.
  assert (Hsnd : ∀ d s1, init_client env c s = Done d s1 →
             init_client env c s1 = Done d s1 ∧
             drivers s1 !! c = Some d ∧
             constructed s1 ≤ S (constructed s)).
  { intros d s1 H. destruct (init_client_stores env c d s s1 H) as [Hd Hn].
    split; [|done]. by apply init_client_registered. }
  split; [exact Hsnd|].
  intros Hpre. destruct (init_client_returns env c s Hpre) as (d & s1 & H).
  exists d, s1. split; [done|]. by apply Hsnd.
Qed.

Lemma init_client_idempotent_witness :
  ∃ d s1,
    init_client Fixtures.env0 "x" Fixtures.st_empty = Done d s1 ∧
    init_client Fixtures.env0 "x" s1 = Done d s1.
Proof.
  destruct (proj2 (init_client_idempotent Fixtures.env0 "x" Fixtures.st_empty))
    as (d & s1 & H1 & _).
  { right. split; by eexists. }
  exists d, s1. split; [exact H1|].
  exact (proj1 (proj1 (init_client_idempotent Fixtures.env0 "x"
                         Fixtures.st_empty) d s1 H1)).
Defined.

(** ** The self-healing path and the lock in the request gate *)

(** On the anomaly path [init_client] finds the client registered: the
    registry keeps the handle it had, nothing is constructed, and the second
    status query goes to that same handle. *)
Lemma ensure_session_anomaly (env : Env) (c : string) (d : WhatsAPIDriver)
    (st : WhatsAPIDriverStatus) (s : State) :
  drivers s !! c = Some d →
  get_status_reply (remote d) = Some st →
  is_live_status st = false →
  ∃ s', ensure_session env c s = Done tt s' ∧
        drivers s' = drivers s ∧
        constructed s' = constructed s ∧
        trace s' = EvCommand (serial d) CmdGetStatus
                   :: EvCommand (serial d) CmdGetStatus :: trace s ∧
        g_driver_status (g s') = Some st.
Proof.
  intros Hd Hst Hlive.
  unfold ensure_session, drivers_get, drivers_set, set_g_driver,
    set_g_driver_status, drv_get_status, command, init_timer. run.
  rewrite dom_lookup_bool, Hd, bool_decide_eq_true_2 by (by eexists).
  run. rewrite Hd. run. rewrite Hst. run. rewrite Hlive. run.
  erewrite init_client_registered by (cbn; exact Hd). cbn.
  rewrite (insert_id (drivers s) c d Hd).
  destruct (timers s !! c) as [[t|]|]; by eexists.
Qed.

(** With the client's lock held for the whole wait, a request that is not
    under [/admin] goes through [before_request] exactly as
    [ensure_session] does: the [False] that [acquire_semaphore] returned is
    dropped. *)
Lemma before_request_lock_held (env : Env) (request : Request)
    (rule parent c : string) (s : State) :
  url_rule request = Some rule → rule_parent_of rule = Some parent →
  parent ≠ "admin" → header_client_id request = Some c → c ≠ "" →
  auth_rejected env (header_auth_key request) = false →
  logger s = true →
  semaphores s !! c = Some (Some 0) →
  before_request env request s =
  ensure_session env c
    (with_event (EvAcquire c 10 false)
       (with_g {| g_client_id := Some (Some c); g_driver := g_driver (g s);
                  g_driver_status := g_driver_status (g s) |} s)).
Proof.
  intros Hrule Hparent Hadm Hid Hc Hauth Hlog Hsem.
  unfold before_request, set_g_client_id. rewrite Hrule, Hparent, Hid. run.
  rewrite Hlog, Hauth, (truthy_Some c Hc). run.
  apply String.eqb_neq in Hadm. rewrite Hadm. run.
  by rewrite (acquire_semaphore_held c false _ Hc) by (cbn; exact Hsem).
Qed.

Lemma send_seen_all_ok (c : string) (d : WhatsAPIDriver) (res : list bool)
    (s : State) :
  Forall (λ ok, ok = true) res →
  ∃ s1, send_seen_all d res s = Done tt s1 ∧
        semaphores s1 = semaphores s ∧
        releases c (trace s1) = releases c (trace s).
Proof.
  intros Hok. revert s.
  induction Hok as [|ok rest -> _ IH]; intros s; [by exists s|].
  cbn [send_seen_all]. unfold drv_send_seen, command. run.
  destruct (IH (with_event (EvCommand (serial d) CmdSendSeen) s))
    as (s1 & -> & Hs1 & Hr1).
  exists s1. by split_and!.
Qed.

(** A poll firing that passes the pre-check, finds the lock free, and whose
    fetch and mark-seen commands all succeed releases the lock twice: the
    counter ends one above where it started. *)
Lemma check_new_messages_success (c : string) (d : WhatsAPIDriver)
    (n : nat) (res : list bool) (s : State) :
  c ≠ "" → drivers s !! c = Some d →
  is_logged_in_reply (remote d) = Some true →
  semaphores s !! c = Some (Some (S n)) →
  get_unread_reply (remote d) = Some res → Forall (λ ok, ok = true) res →
  ∃ s', check_new_messages c s = Done tt s' ∧
        semaphores s' !! c = Some (Some (S (S n))) ∧
        releases c (trace s') = 2 + releases c (trace s).
Proof.
  intros Hc Hd Hlog Hsem Hres Hok.
  unfold check_new_messages, poll_precheck_fails, drv_is_logged_in, command.
  run. rewrite Hd. run. rewrite Hlog. run.
  rewrite (acquire_semaphore_free c true n _ Hc) by (cbn; exact Hsem). run.
  unfold drivers_get, drv_get_unread, command. run. fields. rewrite Hd. run.
  rewrite Hres. run.
  match goal with
  | |- context [send_seen_all d res ?s0] =>
      destruct (send_seen_all_ok c d res s0 Hok) as (s1 & -> & Hs1 & Hr1)
  end.
  cbn in Hs1, Hr1.
  rewrite (release_semaphore_present c n s1 Hc)
    by (by rewrite Hs1, lookup_insert_eq).
  rewrite (release_semaphore_present c (S n) _ Hc)
    by (cbn; by rewrite lookup_insert_eq).
  eexists. split; [reflexivity|]. cbn. split.
  - by rewrite lookup_insert_eq.
  - unfold releases in *. cbn. rewrite String.eqb_refl. cbn.
    by rewrite Hr1.
Qed.

(** ** Where the code departs from the specification *)

Section Departures.
Import Fixtures.

(** C1: a request for client ["a"], whose registered browser answers
    [Unknown], passes the gate with the registry entry unchanged and no
    driver constructed: [init_client] finds the id in [drivers] and hands
    the closed handle back; the status is asked a second time of that same
    handle, and [g.driver_status] stays [Unknown]. *)
Theorem self_heal_keeps_closed_handle :
  ∃ s',
    before_request env0 (client_request "/chats" "a") (st_one r_closed 1)
    = Done tt s' ∧
    drivers s' = drivers (st_one r_closed 1) ∧
    constructed s' = constructed (st_one r_closed 1) ∧
    constructions (trace s') = 0 ∧
    trace s' = [EvCommand 0 CmdGetStatus; EvCommand 0 CmdGetStatus;
                EvAcquire "a" 10 true] ∧
    g_driver_status (g s') = Some Unknown.
Proof. eexists. split; [vm_compute; reflexivity|]. by vm_compute. Qed.

(** C3: a firing of the poll callback for a logged-in client whose lock is
    free, with [get_unread] answering an empty batch, releases the lock
    twice (once at the end of the [try] body, once in [finally]) and leaves
    the semaphore's counter at 2. *)
Theorem poll_success_releases_twice :
  ∃ s',
    check_new_messages "a" (st_one r_logged_in 1) = Done tt s' ∧
    trace s' = [EvRelease "a"; EvRelease "a"; EvCommand 0 CmdGetUnread;
                EvAcquire "a" 0 true; EvCommand 0 CmdIsLoggedIn] ∧
    releases "a" (trace s') = 2 ∧
    semaphores s' !! "a" = Some (Some 2).
Proof. eexists. split; [vm_compute; reflexivity|]. by vm_compute. Qed.

(** C4: releasing the lock of client ["a"] while nobody holds it (counter
    1) raises the counter to 2, after which a foreground acquire and a
    background acquire both succeed with no release in between. *)
Theorem release_of_free_lock_admits_two_holders :
  ∃ s1 s2 s3,
    release_semaphore (Some "a") (st_one r_logged_in 1) = Done None s1 ∧
    semaphores s1 !! "a" = Some (Some 2) ∧
    acquire_semaphore (Some "a") false s1 = Done true s2 ∧
    acquire_semaphore (Some "a") true s2 = Done true s3 ∧
    trace s3 = [EvAcquire "a" 0 true; EvAcquire "a" 10 true; EvRelease "a"].
Proof.
  eexists _, _, _.
  split; [vm_compute; reflexivity|].
  split; [by vm_compute|].
  split; [vm_compute; reflexivity|].
  split; [vm_compute; reflexivity|]. by vm_compute.
Qed.

(** C5: a request for client ["a"] whose lock is held elsewhere for the
    whole wait (counter 0) gets [False] from [acquire_semaphore], and the
    gate goes on: the status command is sent, the view runs and its
    response is returned, and the post-request hook releases the lock the
    request never held. *)
Theorem lock_timeout_is_ignored :
  ∃ s',
    dispatch env0 (client_request "/chats" "a") (view_stub (Some "a"))
      (st_one r_logged_in 0)
    = Done JsonEmptyList s' ∧
    trace s' = [EvRelease "a"; EvView (Some "a"); EvCommand 0 CmdGetStatus;
                EvAcquire "a" 10 false] ∧
    semaphores s' !! "a" = Some (Some 1).
Proof. eexists. split; [vm_compute; reflexivity|]. by vm_compute. Qed.

(** C9: after [kill_clients] has killed client ["a"] the lock table holds
    [None] under ["a"]; the key is present, so [acquire_semaphore] does not
    create a semaphore and calls [acquire] on [None]: the next acquisition
    and the next request of that client raise [AttributeError]. *)
Theorem acquire_after_kill_raises :
  ∃ r s1,
    kill_clients (Some "a") None (st_one r_logged_in 1) = Done r s1 ∧
    semaphores s1 !! "a" = Some None ∧
    acquire_semaphore (Some "a") false s1 = Raise AttributeError s1 ∧
    ∃ s2, before_request env0 (client_request "/chats" "a") s1
          = Raise AttributeError s2.
Proof.
  eexists _, _.
  split; [vm_compute; reflexivity|].
  split; [by vm_compute|].
  split; [by vm_compute|].
  eexists. vm_compute. reflexivity.
Qed.

(** C2: once one poll firing has left the counter of ["a"] at 2, a request
    of ["a"] takes the lock and, while it is in its view, a second poll
    firing takes the lock as well and sends [get_unread] to the same
    driver: two successful acquisitions of the lock of ["a"] with no
    release between them. *)
Theorem two_holders_after_one_poll :
  ∃ s1 s2,
    check_new_messages "a" (st_one r_logged_in 1) = Done tt s1 ∧
    semaphores s1 !! "a" = Some (Some 2) ∧
    request_with_poll_inside s1 = Done JsonEmptyList s2 ∧
    take 6 (since s1 s2)
    = [EvAcquire "a" 10 true; EvCommand 0 CmdGetStatus; EvView (Some "a");
       EvCommand 0 CmdIsLoggedIn; EvAcquire "a" 0 true;
       EvCommand 0 CmdGetUnread].
Proof.
  eexists _, _.
  split; [vm_compute; reflexivity|].
  split; [by vm_compute|].
  split; [vm_compute; reflexivity|]. by vm_compute.
Qed.

End Departures.

(** C8: a [DELETE /client] request of the registered client ["a"] passes
    the gate and reaches the view, whose call
    [delete_client(g.client_id, preserve_cache)] is a call of the view
    itself with two arguments: [TypeError].  The session is still
    registered, [quit] has not been sent, the timer is running and the
    profile directory is in place; the function that removes a session is
    never entered. *)
Theorem delete_view_calls_itself :
  ∃ s',
    (before_request Fixtures.env0 (Fixtures.client_request "/client" "a")
       ;;; delete_client None) (Fixtures.st_one Fixtures.r_logged_in 1)
    = Raise TypeError s' ∧
    drivers s' = drivers (Fixtures.st_one Fixtures.r_logged_in 1) ∧
    timers s' = timers (Fixtures.st_one Fixtures.r_logged_in 1) ∧
    profiles s' = profiles (Fixtures.st_one Fixtures.r_logged_in 1) ∧
    trace s' = [EvCommand 0 CmdGetStatus; EvAcquire "a" 10 true].
Proof. eexists. split; [vm_compute; reflexivity|]. by vm_compute. Qed.

(** Whatever the store and the query string, the view never returns and
    changes nothing. *)
Lemma delete_client_always_raises (arg_preserve_cache : option string)
    (s : State) :
  ∃ e, delete_client arg_preserve_cache s = Raise e s.
Proof.
  unfold delete_client. run. destruct (g_client_id (g s)); by eexists.
Qed.

(** ** Teardown *)



Lemma rmtree_missing (pth : string) (s : State) :
  pth ∉ profiles s → rmtree pth s = Raise OSError (with_event (EvRmtree pth) s).
Proof.
  intros H. unfold rmtree. run. by rewrite bool_decide_eq_false_2.
Qed.

(** ** The kill-dead sweep *)




(** ** The status report after the sweep changes no table *)

Lemma with_events_app (l1 l2 : list Event) (s : State) :
  with_events l1 (with_events l2 s) = with_events (l1 ++ l2)%list s.
Proof. unfold with_events. by rewrite foldr_app. Qed.

Lemma with_events_tables (new : list Event) (s : State) :
  drivers (with_events new s) = drivers s ∧
  timers (with_events new s) = timers s ∧
  semaphores (with_events new s) = semaphores s ∧
  profiles (with_events new s) = profiles s ∧
  g (with_events new s) = g s ∧
  trace (with_events new s) = (new ++ trace s)%list.
Proof.
  unfold with_events. induction new as [|e new IH]; [done|].
  cbn. destruct IH as (-> & -> & -> & -> & -> & ->). done.
Qed.

Lemma get_client_info_frame (c : string) (s : State) :
  ∃ new, final (get_client_info c s) = with_events new s ∧
         Forall is_status_query new.
Proof.
  unfold get_client_info, drv_get_status, command. run.
  destruct (drivers s !! c) as [d|]; run; [|by exists []].
  exists [EvCommand (serial d) CmdGetStatus].
  split; [|repeat constructor; by eexists].
  destruct (get_status_reply (remote d)); run; [|done]. cbn.
  by destruct (timers s !! c) as [[t|]|].
Qed.

Lemma client_infos_frame (keys : list string) (s : State) :
  ∃ new, final (client_infos keys s) = with_events new s ∧
         Forall is_status_query new.
Proof.
  revert s. induction keys as [|k keys IH]; intros s; [by exists []|].
  cbn [client_infos]. unfold bind at 1.
  destruct (get_client_info_frame k s) as (new1 & H1 & HF1).
  destruct (get_client_info k s) as [i s1|e s1]; cbn in H1; subst s1.
  - unfold bind at 1.
    destruct (IH (with_events new1 s)) as (new2 & H2 & HF2).
    destruct (client_infos keys (with_events new1 s)) as [r s2|e s2];
      cbn in H2; subst s2; run; rewrite with_events_app;
      (eexists; split; [reflexivity|by apply Forall_app]).
  - by exists new1.
Qed.

Lemma get_active_clients_frame (s : State) :
  ∃ new, final (get_active_clients s) = with_events new s ∧
         Forall is_status_query new.
Proof.
  unfold get_active_clients. run.
  destruct (drivers_keys s) as [|k keys] eqn:Hk; [by exists []|].
  destruct (client_infos_frame (k :: keys) s) as (new & H & HF).
  exists new. split; [|done].
  by destruct (client_infos (k :: keys) s).
Qed.

Lemma elem_of_drivers_keys (c : string) (s : State) :
  c ∈ drivers_keys s ↔ is_Some (drivers s !! c).
Proof.
  unfold drivers_keys. rewrite list_elem_of_fmap. split.
  - intros ([k d] & -> & H). apply elem_of_map_to_list in H. by eexists.
  - intros [d H]. exists (c, d). split; [done|]. by apply elem_of_map_to_list.
Qed.


Lemma get_client_info_returns (c : string) (d : WhatsAPIDriver) (s : State) :
  drivers s !! c = Some d →
  is_Some (get_status_reply (remote d)) → is_Some (timers s !! c) →
  ∃ i, get_client_info c s =
       Done i (with_events [EvCommand (serial d) CmdGetStatus] s).
Proof.
  intros Hd [st Hst] [t Ht].
  unfold get_client_info, drv_get_status, command. run.
  rewrite Hd. run. rewrite Hst. run. cbn. rewrite Ht.
  destruct t; by eexists.
Qed.

Lemma client_infos_returns (keys : list string) (s : State) :
  (∀ c, c ∈ keys →
        ∃ d, drivers s !! c = Some d ∧
             is_Some (get_status_reply (remote d)) ∧ is_Some (timers s !! c)) →
  ∃ r new, client_infos keys s = Done r (with_events new s).
Proof.
  revert s. induction keys as [|k keys IH]; intros s H.
  { by exists [], []. }
  destruct (H k) as (d & Hd & Hst & Ht); [by left|].
  destruct (get_client_info_returns k d s Hd Hst Ht) as [i Hi].
  destruct (IH (with_events [EvCommand (serial d) CmdGetStatus] s))
    as (r & new & Hr).
  { intros c Hc. destruct (H c) as (dc & ? & ? & ?); [by right|].
    exists dc. by cbn. }
  cbn [client_infos]. unfold bind at 1. rewrite Hi.
  unfold bind at 1. rewrite Hr. run. rewrite with_events_app. by eexists _, _.
Qed.





(** * Further properties of the code *)

(** ** ClientLock: one lock per client *)

(** An acquisition or a release for one client id changes no other client's
    lock entry, and neither the registry nor the timer table, whether it
    succeeds, times out or raises. *)
Theorem lock_operations_are_per_client (x : option string) (b : bool)
    (c' : string) (s : State) :
  x ≠ Some c' →
  (let s' := final (acquire_semaphore x b s) in
   semaphores s' !! c' = semaphores s !! c' ∧
   drivers s' = drivers s ∧ timers s' = timers s) ∧
  (let s' := final (release_semaphore x s) in
   semaphores s' !! c' = semaphores s !! c' ∧
   drivers s' = drivers s ∧ timers s' = timers s).
Proof.
  intros Hx. cbn zeta.
  destruct (truthy x) eqn:Ht.
  2: { rewrite acquire_semaphore_falsy, release_semaphore_falsy by done.
       by split_and!. }
  destruct x as [c|]; [|done].
  assert (Hc : c ≠ "").
  { intros ->. by cbn in Ht. }
  assert (Hne : c ≠ c') by congruence.
  destruct (semaphores s !! c) as [[[|n]|]|] eqn:Hs.
  - rewrite (acquire_semaphore_held c b s Hc Hs),
      (release_semaphore_present c 0 s Hc Hs). cbn.
    split_and!; try done. by rewrite lookup_insert_ne.
  - rewrite (acquire_semaphore_free c b n s Hc Hs),
      (release_semaphore_present c (S n) s Hc Hs). cbn.
    split_and!; try done; by rewrite lookup_insert_ne.
  - rewrite (acquire_semaphore_cleared c b s Hc Hs),
      (release_semaphore_cleared c s Hc Hs). by split_and!.
  - rewrite (acquire_semaphore_absent c b s Hc Hs),
      (release_semaphore_absent c s Hc Hs). cbn.
    split_and!; try done. by rewrite lookup_insert_ne.
Qed.

Lemma lock_operations_are_per_client_witness :
  semaphores (final (acquire_semaphore (Some "a") false Fixtures.st_two)) !! "b"
  = Some (Some 1).
Proof.
  exact (proj1 (proj1 (lock_operations_are_per_client (Some "a") false "b"
                         Fixtures.st_two ltac:(discriminate)))).
Defined.

(** Taking a free lock and releasing it puts the lock table back as it was;
    on the first use of a client id the pair leaves a fresh lock with
    counter 1 under that id. *)
Theorem acquire_release_round_trip (c : string) (b : bool) (s : State) :
  c ≠ "" →
  (∀ n, semaphores s !! c = Some (Some (S n)) →
        ∃ s', (acquire_semaphore (Some c) b ;;; release_semaphore (Some c)) s
              = Done None s' ∧
              semaphores s' = semaphores s) ∧
  (semaphores s !! c = None →
   ∃ s', (acquire_semaphore (Some c) b ;;; release_semaphore (Some c)) s
         = Done None s' ∧
         semaphores s' = <[c := Some 1]> (semaphores s)).
Proof.
  intros Hc. split.
  - intros n Hs. unfold bind.
    rewrite (acquire_semaphore_free c b n s Hc Hs).
    rewrite (release_semaphore_present c n _ Hc)
      by (cbn; by rewrite lookup_insert_eq).
    eexists. split; [reflexivity|]. cbn.
    rewrite insert_insert_eq. by apply insert_id.
  - intros Hs. unfold bind.
    rewrite (acquire_semaphore_absent c b s Hc Hs).
    rewrite (release_semaphore_present c 0 _ Hc)
      by (cbn; by rewrite lookup_insert_eq).
    eexists. split; [reflexivity|]. cbn. by rewrite insert_insert_eq.
Qed.

Lemma acquire_release_round_trip_witness :
  (∃ s', (acquire_semaphore (Some "a") false ;;; release_semaphore (Some "a"))
           Fixtures.st_two = Done None s' ∧
         semaphores s' = semaphores Fixtures.st_two) ∧
  (∃ s', (acquire_semaphore (Some "z") true ;;; release_semaphore (Some "z"))
           Fixtures.st_two = Done None s' ∧
         semaphores s' = <["z" := Some 1]> (semaphores Fixtures.st_two)).
Proof.
  split.
  - apply (proj1 (acquire_release_round_trip "a" false Fixtures.st_two
                    ltac:(discriminate)) 0). reflexivity.
  - apply (proj2 (acquire_release_round_trip "z" true Fixtures.st_two
                    ltac:(discriminate))). reflexivity.
Defined.

(** ** PollingScheduler *)

Lemma init_timer_running_aux (c : string) (s : State) :
  ∃ t, init_timer c s = Done tt (with_timers (<[c := Some t]> (timers s)) s) ∧
       is_running t = true ∧
       (∀ t0, timers s !! c = Some (Some t0) → is_running t0 = true → t = t0).
Proof.
  unfold init_timer. run.
  destruct (timers s !! c) as [[t0|]|] eqn:Ht.
  - exists (RepeatedTimer_start t0). split; [done|].
    unfold RepeatedTimer_start.
    destruct (is_running t0) eqn:Hr; cbn; (split; [done|]);
      intros t1 [= <-]; congruence.
  - exists (RepeatedTimer_init 2 c). by split_and!.
  - exists (RepeatedTimer_init 2 c). by split_and!.
Qed.

(** [init_timer] always leaves a running timer under the client id and
    changes nothing else: a timer that is already running is left as it is,
    a stopped one is armed again with its interval and argument, and a
    missing or cleared entry gets a new armed timer of period 2. *)
Theorem init_timer_leaves_running_timer (c : string) (s : State) :
  ∃ t,
    init_timer c s = Done tt (with_timers (<[c := Some t]> (timers s)) s) ∧
    is_running t = true ∧
    (∀ t0, timers s !! c = Some (Some t0) →
           interval t = interval t0 ∧ args t = args t0 ∧
           (is_running t0 = true → t = t0) ∧
           (is_running t0 = false → timer_armed t = true)) ∧
    (timers s !! c = None ∨ timers s !! c = Some None →
     interval t = 2 ∧ args t = c ∧ timer_armed t = true).
Proof.
  unfold init_timer. run.
  destruct (timers s !! c) as [[t0|]|] eqn:Ht.
  - exists (RepeatedTimer_start t0). split; [done|].
    unfold RepeatedTimer_start.
    destruct (is_running t0) eqn:Hr; cbn.
    + split_and!; try done.
      * intros t1 [= <-]. split_and!; try done. congruence.
      * by intros [|].
    + split_and!; try done.
      * intros t1 [= <-]. split_and!; try done. congruence.
      * by intros [|].
  - exists (RepeatedTimer_init 2 c). split; [done|]. cbn. by split_and!.
  - exists (RepeatedTimer_init 2 c). split; [done|]. cbn. by split_and!.
Qed.

(** Calling [init_timer] a second time changes nothing. *)
Theorem init_timer_idempotent (c : string) (s : State) :
  (init_timer c ;;; init_timer c) s = init_timer c s.
Proof.
  destruct (init_timer_running_aux c s) as (t & Hrun & Hr & _).
  unfold bind. rewrite Hrun.
  destruct (init_timer_running_aux c
              (with_timers (<[c := Some t]> (timers s)) s))
    as (t' & Hrun' & _ & Hsame).
  rewrite Hrun'. cbn in Hsame.
  rewrite (Hsame t) by (by rewrite ?lookup_insert_eq).
  cbn. by rewrite insert_insert_eq.
Qed.

Lemma init_timer_leaves_running_timer_witness :
  ∃ t, init_timer "b" (final (check_new_messages "b" Fixtures.st_two))
       = Done tt (with_timers
                    (<["b" := Some t]>
                       (timers (final (check_new_messages "b" Fixtures.st_two))))
                    (final (check_new_messages "b" Fixtures.st_two))) ∧
       is_running t = true ∧ interval t = 2 ∧ args t = "b" ∧
       timer_armed t = true.
Proof.
  destruct (init_timer_leaves_running_timer "b"
              (final (check_new_messages "b" Fixtures.st_two)))
    as (t & H & Hr & Hsame & _).
  destruct (Hsame (RepeatedTimer_stop (RepeatedTimer_init 2 "b")) eq_refl)
    as (Hi & Ha & _ & Harm).
  exists t. split_and!; try done. by apply Harm.
Defined.

Lemma send_seen_all_frame (c : string) (d : WhatsAPIDriver) (res : list bool)
    (s : State) :
  let s' := final (send_seen_all d res s) in
  drivers s' = drivers s ∧ timers s' = timers s ∧
  semaphores s' = semaphores s ∧
  releases c (trace s') = releases c (trace s).
Proof.
  revert s. induction res as [|ok rest IH]; intros s; [done|].
  cbn [send_seen_all]. unfold drv_send_seen, command. run.
  destruct ok; run; [|done].
  specialize (IH (with_event (EvCommand (serial d) CmdSendSeen) s)).
  destruct (send_seen_all d rest _); exact IH.
Qed.

Lemma send_seen_all_fails (d : WhatsAPIDriver) (res : list bool) (s : State) :
  false ∈ res → ∃ s', send_seen_all d res s = Raise DriverError s'.
Proof.
  revert s. induction res as [|ok rest IH]; intros s Hin.
  { by apply elem_of_nil in Hin. }
  cbn [send_seen_all]. unfold drv_send_seen, command. run.
  destruct ok; run; [|by eexists].
  apply elem_of_cons in Hin as [[=]|Hin].
  destruct (IH (with_event (EvCommand (serial d) CmdSendSeen) s) Hin)
    as [s' ->]. by eexists.
Qed.

(** A poll firing whose pre-check passes while the client's lock is held
    skips the cycle: it returns without sending [get_unread], without
    releasing anything, and with every table as it was. *)
Theorem poll_skips_when_lock_is_held (c : string) (d : WhatsAPIDriver)
    (s : State) :
  c ≠ "" → drivers s !! c = Some d →
  is_logged_in_reply (remote d) = Some true →
  semaphores s !! c = Some (Some 0) →
  check_new_messages c s =
  Done tt (with_event (EvAcquire c 0 false)
             (with_event (EvCommand (serial d) CmdIsLoggedIn) s)).
Proof.
  intros Hc Hd Hlog Hsem.
  unfold check_new_messages, poll_precheck_fails, drv_is_logged_in, command.
  run. rewrite Hd. run. rewrite Hlog. run.
  by rewrite (acquire_semaphore_held c true _ Hc) by (fields; exact Hsem).
Qed.

Lemma poll_skips_when_lock_is_held_witness :
  check_new_messages "a" (Fixtures.st_one Fixtures.r_logged_in 0) =
  Done tt (with_event (EvAcquire "a" 0 false)
             (with_event (EvCommand 0 CmdIsLoggedIn)
                (Fixtures.st_one Fixtures.r_logged_in 0))).
Proof.
  apply (poll_skips_when_lock_is_held "a"
           (Fixtures.driver_of 0 "a" Fixtures.r_logged_in));
    [discriminate | reflexivity..].
Defined.

(** A poll firing that takes the lock and then fails, in [get_unread] or in
    a [send_seen], swallows the error: it returns normally, releases the
    lock exactly once, and leaves the lock table, the registry and the timer
    table as they were. *)
Theorem poll_failure_releases_once (c : string) (d : WhatsAPIDriver)
    (n : nat) (s : State) :
  c ≠ "" → drivers s !! c = Some d →
  is_logged_in_reply (remote d) = Some true →
  semaphores s !! c = Some (Some (S n)) →
  (get_unread_reply (remote d) = None ∨
   ∃ res, get_unread_reply (remote d) = Some res ∧ false ∈ res) →
  ∃ s', check_new_messages c s = Done tt s' ∧
        semaphores s' = semaphores s ∧
        drivers s' = drivers s ∧ timers s' = timers s ∧
        releases c (trace s') = 1 + releases c (trace s).
Proof.
  intros Hc Hd Hlog Hsem Hfail.
  unfold check_new_messages, poll_precheck_fails, drv_is_logged_in, command.
  run. rewrite Hd. run. rewrite Hlog. run.
  rewrite (acquire_semaphore_free c true n _ Hc) by (fields; exact Hsem). run.
  unfold drivers_get, drv_get_unread, command. run. fields. rewrite Hd. run.
  assert (Hback : <[c:=Some (S n)]> (<[c:=Some n]> (semaphores s))
                  = semaphores s).
  { rewrite insert_insert_eq. by apply insert_id. }
  destruct Hfail as [Hnone|(res & Hres & Hin)].
  - rewrite Hnone. run.
    rewrite (release_semaphore_present c n _ Hc)
      by (fields; by rewrite lookup_insert_eq).
    eexists. split; [reflexivity|]. fields. rewrite Hback.
    split_and!; try done.
    unfold releases. cbn. by rewrite String.eqb_refl.
  - rewrite Hres. run.
    match goal with
    | |- context [send_seen_all d res ?s0] =>
        destruct (send_seen_all_fails d res s0 Hin) as [s1 Hs1];
        pose proof (send_seen_all_frame c d res s0) as Hfr;
        rewrite Hs1 in Hfr |- *; cbn in Hfr;
        destruct Hfr as (Hfd & Hft & Hfs & Hfr)
    end.
    rewrite (release_semaphore_present c n s1 Hc)
      by (by rewrite Hfs, lookup_insert_eq).
    eexists. split; [reflexivity|]. fields. rewrite Hfs, Hback.
    split_and!; try done.
    unfold releases in *. cbn. rewrite String.eqb_refl. cbn. by rewrite Hfr.
Qed.

Lemma poll_failure_releases_once_witness :
  ∃ s', check_new_messages "a"
          (with_drivers {[ "a" := Fixtures.driver_of 0 "a"
                              {| get_status_reply := Some LoggedIn;
                                 is_logged_in_reply := Some true;
                                 quit_ok := true;
                                 get_unread_reply := Some [true; false] |} ]}
             (Fixtures.st_one Fixtures.r_logged_in 1)) = Done tt s' ∧
        semaphores s' !! "a" = Some (Some 1).
Proof.
  destruct (poll_failure_releases_once "a"
              (Fixtures.driver_of 0 "a"
                 {| get_status_reply := Some LoggedIn;
                    is_logged_in_reply := Some true;
                    quit_ok := true;
                    get_unread_reply := Some [true; false] |})
              0
              (with_drivers {[ "a" := Fixtures.driver_of 0 "a"
                                  {| get_status_reply := Some LoggedIn;
                                     is_logged_in_reply := Some true;
                                     quit_ok := true;
                                     get_unread_reply := Some [true; false] |} ]}
                 (Fixtures.st_one Fixtures.r_logged_in 1)))
    as (s' & H & Hs & _);
    [discriminate | reflexivity | reflexivity | reflexivity | |].
  - right. eexists. split; [reflexivity|].
    apply elem_of_cons. right. apply elem_of_cons. by left.
  - exists s'. split; [exact H|]. by rewrite Hs.
Defined.

Lemma check_new_messages_not_logged_in (c : string) (s : State) :
  not_logged_in c s →
  ∃ new, check_new_messages c s = timers_stop c (with_events new s).
Proof.
  intros [Hd|(d & Hd & Hlog)];
    unfold check_new_messages, poll_precheck_fails, drv_is_logged_in, command;
    run; rewrite Hd; run.
  - by exists [].
  - rewrite Hlog. run. by exists [EvCommand (serial d) CmdIsLoggedIn].
Qed.

(** A poll firing for a client that has no session, or whose driver is not
    logged in, stops the client's timer and touches neither the lock table
    nor the registry; the next [init_timer] arms the same timer again.  When
    the timer table has no timer for the client the firing raises
    ([KeyError] for a missing key, [AttributeError] for a cleared entry). *)
Theorem poll_stops_timer_when_not_logged_in (c : string) (s : State) :
  not_logged_in c s →
  (∀ t, timers s !! c = Some (Some t) →
        ∃ s', check_new_messages c s = Done tt s' ∧
              timers s' = <[c := Some (RepeatedTimer_stop t)]> (timers s) ∧
              semaphores s' = semaphores s ∧ drivers s' = drivers s ∧
              ∃ s'' t', init_timer c s' = Done tt s'' ∧
                        timers s'' !! c = Some (Some t') ∧
                        is_running t' = true ∧ timer_armed t' = true ∧
                        interval t' = interval t ∧ args t' = args t) ∧
  (timers s !! c = None →
   ∃ s', check_new_messages c s = Raise KeyError s') ∧
  (timers s !! c = Some None →
   ∃ s', check_new_messages c s = Raise AttributeError s').
Proof.
  intros Hnot.
  destruct (check_new_messages_not_logged_in c s Hnot) as [new ->].
  destruct (with_events_tables new s) as (Ed & Et & Es & _).
  unfold timers_stop. run. rewrite Et.
  split_and!.
  - intros t Ht. rewrite Ht. run.
    eexists. split; [reflexivity|]. fields. rewrite Es, Ed.
    split_and!; try done.
    unfold init_timer. run. fields. rewrite lookup_insert_eq. run.
    eexists _, _. split; [reflexivity|]. fields. rewrite lookup_insert_eq.
    by split_and!.
  - intros ->. by eexists.
  - intros ->. by eexists.
Qed.

Lemma poll_stops_timer_when_not_logged_in_witness :
  ∃ s', check_new_messages "b" Fixtures.st_two = Done tt s' ∧
        timers s' = <["b" := Some (RepeatedTimer_stop (RepeatedTimer_init 2 "b"))]>
                      (timers Fixtures.st_two).
Proof.
  destruct (poll_stops_timer_when_not_logged_in "b" Fixtures.st_two)
    as (H & _).
  { right. exists (Fixtures.driver_of 1 "b" Fixtures.r_qr). by split. }
  destruct (H (RepeatedTimer_init 2 "b") eq_refl) as (s' & Hrun & Ht & _).
  by exists s'.
Defined.

(** A firing of the timer itself ([_run]) for a client that is not logged
    in ends with the timer stopped and disarmed: the re-arming done at the
    start of [_run] is cancelled by the callback, so no further firing
    follows. *)
Theorem timer_run_stops_when_not_logged_in (c : string) (t : RepeatedTimer)
    (s : State) :
  timers s !! c = Some (Some t) → args t = c → not_logged_in c s →
  ∃ s' t', RepeatedTimer_run c s = Done tt s' ∧
           timers s' !! c = Some (Some t') ∧
           is_running t' = false ∧ timer_armed t' = false ∧
           semaphores s' = semaphores s ∧ drivers s' = drivers s.
Proof.
  intros Ht Hargs Hnot. unfold RepeatedTimer_run. run. rewrite Ht, Hargs. run.
  match goal with
  | |- context [check_new_messages c ?s0] =>
      destruct (check_new_messages_not_logged_in c s0) as [new ->];
      [exact Hnot|];
      destruct (with_events_tables new s0) as (Ed & Et & Es & _)
  end.
  unfold timers_stop. run. rewrite Et. fields. rewrite lookup_insert_eq. run.
  eexists _, _. split; [reflexivity|]. fields. rewrite lookup_insert_eq.
  by rewrite Es, Ed.
Qed.

Lemma timer_run_stops_when_not_logged_in_witness :
  ∃ s' t', RepeatedTimer_run "b" Fixtures.st_two = Done tt s' ∧
           timers s' !! "b" = Some (Some t') ∧ is_running t' = false.
Proof.
  destruct (timer_run_stops_when_not_logged_in "b" (RepeatedTimer_init 2 "b")
              Fixtures.st_two) as (s' & t' & H & Ht & Hr & _);
    [reflexivity | reflexivity | |].
  { right. exists (Fixtures.driver_of 1 "b" Fixtures.r_qr). by split. }
  by exists s', t'.
Defined.

(** Whatever the driver does with [get_unread] and [send_seen] (answer,
    raise, fail half-way through the batch), a poll firing for a logged-in
    client whose lock entry is a semaphore or is still missing returns
    normally, and changes neither the registry, nor the timer table, nor
    another client's lock. *)
Theorem poll_swallows_driver_errors (c : string) (d : WhatsAPIDriver)
    (s : State) :
  c ≠ "" → drivers s !! c = Some d →
  is_logged_in_reply (remote d) = Some true →
  semaphores s !! c ≠ Some None →
  ∃ s', check_new_messages c s = Done tt s' ∧
        drivers s' = drivers s ∧ timers s' = timers s ∧
        ∀ k, k ≠ c → semaphores s' !! k = semaphores s !! k.
Proof.
  intros Hc Hd Hlog Hsem.
  unfold check_new_messages, poll_precheck_fails, drv_is_logged_in, command.
  run. rewrite Hd. run. rewrite Hlog. run.
  assert (Hbody : ∀ m s0,
    drivers s0 = drivers s → timers s0 = timers s →
    semaphores s0 = <[c := Some m]> (semaphores s) →
    ∃ s', try_pass_finally
            (d <- drivers_get c ;;
             res <- drv_get_unread d ;;
             send_seen_all d res ;;;
             release_semaphore (Some c) ;;;
             ret tt)
            (release_semaphore (Some c) ;;; ret tt) s0 = Done tt s' ∧
          drivers s' = drivers s ∧ timers s' = timers s ∧
          ∀ k, k ≠ c → semaphores s' !! k = semaphores s !! k).
  { intros m s0 H0d H0t H0s.
    unfold drivers_get, drv_get_unread, command. run.
    rewrite H0d, Hd. run.
    destruct (get_unread_reply (remote d)) as [res|]; run.
    - pose proof (send_seen_all_frame c d res
                    (with_event (EvCommand (serial d) CmdGetUnread) s0)) as Hfr.
      cbn zeta in Hfr.
      destruct (send_seen_all d res _) as [[] s1|e s1];
        cbn [final drivers timers semaphores trace with_event] in Hfr;
        destruct Hfr as (Hfd & Hft & Hfs & _).
      + rewrite (release_semaphore_present c m s1 Hc)
          by (by rewrite Hfs, H0s, lookup_insert_eq).
        rewrite (release_semaphore_present c (S m) _ Hc)
          by (fields; by rewrite lookup_insert_eq).
        eexists. split; [reflexivity|]. fields.
        rewrite Hfd, Hft, Hfs, H0d, H0t, H0s. split_and!; try done.
        intros k Hk. by rewrite !lookup_insert_ne.
      + rewrite (release_semaphore_present c m s1 Hc)
          by (by rewrite Hfs, H0s, lookup_insert_eq).
        eexists. split; [reflexivity|]. fields.
        rewrite Hfd, Hft, Hfs, H0d, H0t, H0s. split_and!; try done.
        intros k Hk. by rewrite !lookup_insert_ne.
    - rewrite (release_semaphore_present c m _ Hc)
        by (fields; by rewrite H0s, lookup_insert_eq).
      eexists. split; [reflexivity|]. fields.
      rewrite H0d, H0t, H0s. split_and!; try done.
      intros k Hk. by rewrite !lookup_insert_ne. }
  destruct (semaphores s !! c) as [[[|n]|]|] eqn:Hs; [| | done |].
  - rewrite (acquire_semaphore_held c true _ Hc) by (fields; exact Hs). run.
    eexists. split; [reflexivity|]. by split_and!.
  - rewrite (acquire_semaphore_free c true n _ Hc) by (fields; exact Hs).
    cbn [negb]. cbv beta iota.
    apply (Hbody n); by fields.
  - rewrite (acquire_semaphore_absent c true _ Hc) by (fields; exact Hs).
    cbn [negb]. cbv beta iota.
    apply (Hbody 0); by fields.
Qed.

Lemma poll_swallows_driver_errors_witness :
  (get_unread_reply r_unread_fails = None ∧
   ∃ s', check_new_messages "a" (Fixtures.st_one r_unread_fails 1)
         = Done tt s' ∧
         drivers s' = drivers (Fixtures.st_one r_unread_fails 1) ∧
         timers s' = timers (Fixtures.st_one r_unread_fails 1) ∧
         trace s' = [EvRelease "a"; EvCommand 0 CmdGetUnread;
                     EvAcquire "a" 0 true; EvCommand 0 CmdIsLoggedIn]) ∧
  (get_unread_reply r_seen_fails = Some [true; false] ∧
   ∃ s', check_new_messages "a" (Fixtures.st_one r_seen_fails 1)
         = Done tt s' ∧
         drivers s' = drivers (Fixtures.st_one r_seen_fails 1) ∧
         timers s' = timers (Fixtures.st_one r_seen_fails 1) ∧
         trace s' = [EvRelease "a"; EvCommand 0 CmdSendSeen;
                     EvCommand 0 CmdSendSeen; EvCommand 0 CmdGetUnread;
                     EvAcquire "a" 0 true; EvCommand 0 CmdIsLoggedIn]).
Proof.
  split; (split; [reflexivity|]).
  - destruct (poll_swallows_driver_errors "a"
                (Fixtures.driver_of 0 "a" r_unread_fails)
                (Fixtures.st_one r_unread_fails 1))
      as (s' & H & Hd & Ht & _);
      [discriminate | reflexivity | reflexivity | discriminate |].
    exists s'. split_and!; try done.
    apply (f_equal (λ r, trace (final r))) in H. cbn [final] in H.
    rewrite <- H. by vm_compute.
  - destruct (poll_swallows_driver_errors "a"
                (Fixtures.driver_of 0 "a" r_seen_fails)
                (Fixtures.st_one r_seen_fails 1))
      as (s' & H & Hd & Ht & _);
      [discriminate | reflexivity | reflexivity | discriminate |].
    exists s'. split_and!; try done.
    apply (f_equal (λ r, trace (final r))) in H. cbn [final] in H.
    rewrite <- H. by vm_compute.
Defined.

(** ** Status report *)

(** [get_client_info]: no session gives [None] and sends nothing; for a
    session whose driver answers the status query, the report says alive
    exactly for [NotLoggedIn] and [LoggedIn], logged in exactly for
    [LoggedIn] (so logged in implies alive), and timer exactly when the
    timer entry holds a running timer, at the price of one status query; a
    session with no key in the timer table makes the call raise
    [KeyError]. *)
Theorem get_client_info_report (c : string) (s : State) :
  (drivers s !! c = None → get_client_info c s = Done None s) ∧
  (∀ d st, drivers s !! c = Some d →
           get_status_reply (remote d) = Some st →
     (is_Some (timers s !! c) →
      ∃ i, get_client_info c s =
           Done (Some i) (with_event (EvCommand (serial d) CmdGetStatus) s) ∧
           (is_alive i = true ↔ st = NotLoggedIn ∨ st = LoggedIn) ∧
           (is_logged_in i = true ↔ st = LoggedIn) ∧
           (is_logged_in i = true → is_alive i = true) ∧
           (is_timer i = true ↔
            ∃ t, timers s !! c = Some (Some t) ∧ is_running t = true)) ∧
     (timers s !! c = None →
      get_client_info c s =
      Raise KeyError (with_event (EvCommand (serial d) CmdGetStatus) s))).
Proof.
  split.
  - intros Hd. unfold get_client_info. run. by rewrite Hd.
  - intros d st Hd Hst.
    unfold get_client_info, drv_get_status, command. run.
    rewrite Hd. run. rewrite Hst. run. fields.
    split.
    + intros [[t|] Ht]; rewrite Ht; (eexists; split; [reflexivity|]); cbn;
        (split_and!; [destruct st; vm_compute; intuition congruence..|]).
      * split.
        -- intros Hr. by exists t.
        -- by intros (t' & [= <-] & Hr).
      * split; [done|]. by intros (t' & [=] & _).
    + by intros ->.
Qed.

Lemma get_client_info_report_witness :
  get_client_info "z" Fixtures.st_two = Done None Fixtures.st_two ∧
  ∃ i, get_client_info "b" Fixtures.st_two =
       Done (Some i) (with_event (EvCommand 1 CmdGetStatus) Fixtures.st_two) ∧
       (is_logged_in i = true ↔ NotLoggedIn = LoggedIn).
Proof.
  split.
  - apply (get_client_info_report "z" Fixtures.st_two). reflexivity.
  - destruct (proj1 (proj2 (get_client_info_report "b" Fixtures.st_two)
                      (Fixtures.driver_of 1 "b" Fixtures.r_qr) NotLoggedIn
                      eq_refl eq_refl)) as (i & H & _ & Hl & _).
    + by eexists.
    + by exists i.
Defined.


Lemma client_infos_keys (keys : list string)
    (r : list (string * option ClientInfo)) (s s' : State) :
  client_infos keys s = Done r s' →
  (∀ c, c ∈ keys → is_Some (drivers s !! c)) →
  r.*1 = keys ∧ Forall (λ p, is_Some p.2) r.
Proof.
  revert r s. induction keys as [|k keys IH]; intros r s.
  { cbn. by intros [= <- <-]. }
  cbn [client_infos]. unfold bind at 1. intros Hrun Hreg.
  destruct (get_client_info_frame k s) as (new & Hfin & _).
  destruct (Hreg k) as [d Hd]; [by left|].
  destruct (get_client_info k s) as [i s1|e s1] eqn:Hi; [|done].
  cbn in Hfin. subst s1. unfold bind at 1 in Hrun.
  destruct (client_infos keys (with_events new s)) as [r1 s2|e s2] eqn:Hr;
    [|done].
  revert Hrun. run. intros [= <- <-].
  destruct (IH r1 (with_events new s) Hr) as [Hk Hsome].
  { intros c Hc. destruct (with_events_tables new s) as (-> & _).
    apply Hreg. by right. }
  split; [cbn; by rewrite Hk|].
  constructor; [|done]. cbn.
  revert Hi. unfold get_client_info. run. rewrite Hd.
  unfold drv_get_status, command. run.
  destruct (get_status_reply (remote d)); run; [|done]. fields.
  destruct (timers s !! k) as [[t|]|]; intros [= <- _]; by eexists.
Qed.

(** ** AdminOperations: listing *)

Lemma get_client_info_Done (c : string) (d : WhatsAPIDriver)
    (i : option ClientInfo) (s s1 : State) :
  drivers s !! c = Some d → get_client_info c s = Done i s1 →
  ∃ st, get_status_reply (remote d) = Some st ∧
        i = Some (info_of st (timers s !! c)).
Proof.
  intros Hd. unfold get_client_info, drv_get_status, command. run.
  rewrite Hd. run.
  destruct (get_status_reply (remote d)) as [st|]; run; [|done]. fields.
  destruct (timers s !! c) as [[t|]|]; [| |done];
    intros [= <- _]; by exists st.
Qed.

Lemma client_infos_content (keys : list string)
    (r : list (string * option ClientInfo)) (s s' : State) :
  client_infos keys s = Done r s' →
  (∀ c, c ∈ keys → is_Some (drivers s !! c)) →
  ∀ c i, (c, i) ∈ r →
         ∃ d st, drivers s !! c = Some d ∧
                 get_status_reply (remote d) = Some st ∧
                 i = Some (info_of st (timers s !! c)).
Proof.
  revert r s. induction keys as [|k keys IH]; intros r s.
  { cbn. intros [= <- <-] _ c i H. by apply elem_of_nil in H. }
  cbn [client_infos]. unfold bind at 1. intros Hrun Hreg.
  destruct (get_client_info_frame k s) as (new & Hfin & _).
  destruct (Hreg k) as [d Hd]; [by left|].
  destruct (get_client_info k s) as [j s1|e s1] eqn:Hj; [|done].
  cbn in Hfin. subst s1. unfold bind at 1 in Hrun.
  destruct (client_infos keys (with_events new s)) as [r1 s2|e s2] eqn:Hr;
    [|done].
  revert Hrun. run. intros [= <- <-] c i Hin.
  destruct (with_events_tables new s) as (Ed & Et & _).
  apply elem_of_cons in Hin as [[= -> ->]|Hin].
  - destruct (get_client_info_Done k d j s _ Hd Hj) as (st & Hst & ->).
    by exists d, st.
  - destruct (IH r1 (with_events new s) Hr) with (c := c) (i := i)
      as (dc & st & Hdc & Hst & ->); [|done|].
    + intros c' Hc'. rewrite Ed. apply Hreg. by right.
    + rewrite Ed in Hdc. rewrite Et. by exists dc, st.
Qed.

(** [get_active_clients] changes no table and no directory.  With an empty
    registry it answers the empty list at once.  With a registry that is
    not empty, and drivers that answer the status query for clients that
    have a key in the timer table, it returns a report; and whenever it
    returns a report, the report has exactly one entry per registered
    client, which is the status record built from that client's driver
    status and timer entry. *)
Theorem get_active_clients_lists_registry (s : State) :
  (let s' := final (get_active_clients s) in
   drivers s' = drivers s ∧ timers s' = timers s ∧
   semaphores s' = semaphores s ∧ profiles s' = profiles s) ∧
  (drivers s = ∅ → get_active_clients s = Done JsonEmptyList s) ∧
  (drivers s ≠ ∅ →
   (∀ c d, drivers s !! c = Some d →
           is_Some (get_status_reply (remote d)) ∧ is_Some (timers s !! c)) →
   ∃ l s', get_active_clients s = Done (JsonClients l) s') ∧
  (∀ l s', get_active_clients s = Done (JsonClients l) s' →
           NoDup l.*1 ∧ (∀ c, c ∈ l.*1 ↔ is_Some (drivers s !! c)) ∧
           ∀ c i, (c, i) ∈ l →
                  ∃ d st, drivers s !! c = Some d ∧
                          get_status_reply (remote d) = Some st ∧
                          i = Some (info_of st (timers s !! c))).
Proof.
  split_and!.
  - cbn zeta. destruct (get_active_clients_frame s) as (new & -> & _).
    destruct (with_events_tables new s) as (-> & -> & -> & -> & _). done.
  - intros He. unfold get_active_clients, drivers_keys. run.
    by rewrite He, map_to_list_empty.
  - intros Hne Hans. unfold get_active_clients. run.
    destruct (drivers_keys s) as [|k keys] eqn:Hk.
    { exfalso. apply Hne. unfold drivers_keys in Hk.
      apply fmap_nil_inv in Hk. by apply map_to_list_empty_iff. }
    destruct (client_infos_returns (k :: keys) s) as (r & new & ->).
    { intros c Hc. rewrite <- Hk in Hc.
      apply elem_of_drivers_keys in Hc as [d Hd].
      exists d. split; [done|]. by apply (Hans c). }
    by eexists _, _.
  - intros l s'. unfold get_active_clients. run.
    destruct (drivers_keys s) as [|k keys] eqn:Hk; [done|].
    destruct (client_infos (k :: keys) s) as [r s1|e s1] eqn:Hr; [|done].
    intros [= <- <-].
    assert (Hreg : ∀ c, c ∈ k :: keys → is_Some (drivers s !! c)).
    { intros c Hc. rewrite <- Hk in Hc. by apply elem_of_drivers_keys. }
    destruct (client_infos_keys (k :: keys) r s s1 Hr Hreg) as [Hkeys _].
    rewrite Hkeys, <- Hk.
    split_and!; [apply NoDup_fst_map_to_list
                |intros c; apply elem_of_drivers_keys|].
    by apply (client_infos_content (k :: keys) r s s1).
Qed.

Lemma get_active_clients_lists_registry_witness :
  get_active_clients Fixtures.st_empty = Done JsonEmptyList Fixtures.st_empty ∧
  ∃ l s', get_active_clients Fixtures.st_two = Done (JsonClients l) s' ∧
          (∀ c, c ∈ l.*1 ↔ is_Some (drivers Fixtures.st_two !! c)) ∧
          ("b", Some {| is_alive := true; is_logged_in := false;
                        is_timer := true |}) ∈ l.
Proof.
  split.
  - apply (get_active_clients_lists_registry Fixtures.st_empty). reflexivity.
  - destruct (get_active_clients_lists_registry Fixtures.st_two)
      as (_ & _ & Hret & Hcont).
    destruct Hret as (l & s' & H).
    + intros He. apply (f_equal (λ m, m !! "a")) in He. by vm_compute in He.
    + intros c d Hd.
      destruct (decide (c = "a")) as [->|Ha];
        [|destruct (decide (c = "b")) as [->|Hb]].
      * vm_compute in Hd. injection Hd as <-. split; by eexists.
      * vm_compute in Hd. injection Hd as <-. split; by eexists.
      * unfold Fixtures.st_two in Hd. cbn in Hd.
        rewrite lookup_insert_ne, lookup_singleton_ne in Hd by done.
        discriminate.
    + exists l, s'. split; [exact H|].
      destruct (Hcont l s' H) as (_ & Hkeys & _). split; [exact Hkeys|].
      assert (Hl : get_active_clients Fixtures.st_two
                   = Done (JsonClients
                       [("a", Some {| is_alive := true; is_logged_in := true;
                                      is_timer := true |});
                        ("b", Some {| is_alive := true; is_logged_in := false;
                                      is_timer := true |})])
                       (with_events [EvCommand 1 CmdGetStatus;
                                     EvCommand 0 CmdGetStatus] Fixtures.st_two))
        by (vm_compute; reflexivity).
      rewrite Hl in H. injection H as <- _.
      apply elem_of_cons. right. apply elem_of_cons. by left.
Defined.

(** ** SessionRegistry: failed construction *)

Lemma init_client_failure_registers_nothing_aux (env : Env) (c : string)
    (e : exn) (s s1 : State) :
  init_client env c s = Raise e s1 →
  drivers s1 = drivers s ∧ drivers s !! c = None ∧
  timers s1 = timers s ∧ semaphores s1 = semaphores s.
Proof.
  unfold init_client. run. rewrite dom_lookup_bool.
  destruct (drivers s !! c) as [d0|] eqn:Hd.
  { rewrite bool_decide_eq_true_2 by (by eexists).
    unfold drivers_get. run. by rewrite Hd. }
  rewrite bool_decide_eq_false_2 by (by intros [? ?]).
  unfold init_driver, drivers_set, drivers_get. run.
  case_bool_decide as Hp; run;
    (destruct (SELENIUM env) eqn:Hsel; run;
     [destruct (connect env c _) eqn:Hcon; run;
      [cbn; rewrite lookup_insert_eq; done|]|]);
    intros [= <- <-]; fields; by split_and!.
Qed.

(** When [init_client] raises, the registry is as it was: nothing is stored
    under the client id, so the next call attempts the construction again.
    The profile directory has been created all the same. *)
Theorem init_client_failure_registers_nothing (env : Env) (c : string)
    (e : exn) (s s1 : State) :
  init_client env c s = Raise e s1 →
  drivers s1 = drivers s ∧ drivers s !! c = None ∧
  timers s1 = timers s ∧ semaphores s1 = semaphores s ∧
  FIREFOX_CACHE_PATH ++ c ∈ profiles s1 ∧
  (e = KeyError ∧ SELENIUM env = None ∨
   e = DriverError ∧ connect env c (constructed s) = None).
Proof.
  unfold init_client. run. rewrite dom_lookup_bool.
  destruct (drivers s !! c) as [d0|] eqn:Hd.
  { rewrite bool_decide_eq_true_2 by (by eexists).
    unfold drivers_get. run. by rewrite Hd. }
  rewrite bool_decide_eq_false_2 by (by intros [? ?]).
  unfold init_driver, drivers_set, drivers_get. run.
  case_bool_decide as Hp; run;
    (destruct (SELENIUM env) eqn:Hsel; run;
     [destruct (connect env c _) eqn:Hcon; run;
      [cbn; rewrite lookup_insert_eq; done|]|]);
    intros [= <- <-]; fields; split_and!; try done;
    try set_solver; (by left) || (by right).
Qed.

Lemma init_client_failure_registers_nothing_witness :
  drivers (final (init_client
                    {| API_KEY := None; SELENIUM := None;
                       connect := fun _ _ => None; log_dir_ok := true |}
                    "x" Fixtures.st_two))
  = drivers Fixtures.st_two.
Proof.
  exact (proj1 (init_client_failure_registers_nothing
                  {| API_KEY := None; SELENIUM := None;
                     connect := fun _ _ => None; log_dir_ok := true |}
                  "x" KeyError Fixtures.st_two _ eq_refl)).
Defined.

(** ** RequestGate *)

(** A request that is not under [/admin], passes the key check and names a
    client: [before_request] records the client id in [g] and goes on to
    the lock and the session. *)
Lemma before_request_admitted (env : Env) (request : Request)
    (rule parent c : string) (s : State) :
  url_rule request = Some rule → rule_parent_of rule = Some parent →
  parent ≠ "admin" → header_client_id request = Some c → c ≠ "" →
  auth_rejected env (header_auth_key request) = false →
  logger s = true ∨ log_dir_ok env = true →
  ∃ s0, before_request env request s
        = (acquire_semaphore (Some c) false ;;; ensure_session env c) s0 ∧
        drivers s0 = drivers s ∧ timers s0 = timers s ∧
        semaphores s0 = semaphores s ∧ profiles s0 = profiles s ∧
        constructed s0 = constructed s ∧ trace s0 = trace s ∧
        g_client_id (g s0) = Some (Some c).
Proof.
  intros Hrule Hparent Hadm Hid Hc Hauth Hlog.
  unfold before_request, set_g_client_id, create_logger.
  rewrite Hrule, Hparent, Hid. run.
  apply String.eqb_neq in Hadm.
  destruct (logger s) eqn:Hl; run.
  - rewrite Hauth, (truthy_Some c Hc), Hadm. run.
    eexists. split; [reflexivity|]. by split_and!.
  - destruct Hlog as [Hf | Hok]; [discriminate|]. rewrite Hok. run.
    rewrite Hauth, (truthy_Some c Hc), Hadm. run.
    eexists. split; [reflexivity|]. by split_and!.
Qed.

Lemma ensure_session_live (env : Env) (c : string) (d : WhatsAPIDriver)
    (st : WhatsAPIDriverStatus) (s : State) :
  drivers s !! c = Some d → get_status_reply (remote d) = Some st →
  is_live_status st = true →
  ∃ s1 t, ensure_session env c s = Done tt s1 ∧
          drivers s1 = drivers s ∧ semaphores s1 = semaphores s ∧
          profiles s1 = profiles s ∧ constructed s1 = constructed s ∧
          trace s1 = EvCommand (serial d) CmdGetStatus :: trace s ∧
          g s1 = {| g_client_id := g_client_id (g s); g_driver := Some d;
                    g_driver_status := Some st |} ∧
          timers s1 = <[c := Some t]> (timers s) ∧ is_running t = true ∧
          (∀ t0, timers s !! c = Some (Some t0) → is_running t0 = true →
                 t = t0).
Proof.
  intros Hd Hst Hlive.
  unfold ensure_session, drivers_get, drivers_set, set_g_driver,
    set_g_driver_status, drv_get_status, command. run.
  rewrite dom_lookup_bool, Hd, bool_decide_eq_true_2 by (by eexists).
  run. rewrite Hd. run. rewrite Hst. run. rewrite Hlive. run.
  match goal with
  | |- context [init_timer c ?s0] =>
      destruct (init_timer_running_aux c s0) as (t & -> & Hr & Hsame)
  end.
  eexists _, t. split; [reflexivity|]. fields. by split_and!.
Qed.

Lemma init_client_fresh (env : Env) (c u : string) (r : Remote) (s : State) :
  drivers s !! c = None → SELENIUM env = Some u →
  connect env c (constructed s) = Some r →
  let d := {| serial := constructed s; username := c;
              profile := FIREFOX_CACHE_PATH ++ c; remote := r |} in
  ∃ s1, init_client env c s = Done d s1 ∧
        drivers s1 = <[c := d]> (drivers s) ∧
        timers s1 = timers s ∧ semaphores s1 = semaphores s ∧
        profiles s1 = {[ FIREFOX_CACHE_PATH ++ c ]} ∪ profiles s ∧
        constructed s1 = S (constructed s) ∧
        trace s1 = EvConstruct (constructed s) c :: trace s ∧
        g s1 = g s.
Proof.
  intros Hd Hsel Hcon d.
  unfold init_client, init_driver, drivers_get, drivers_set. run.
  rewrite dom_lookup_bool, Hd, bool_decide_eq_false_2 by (by intros [? ?]).
  rewrite Hsel.
  case_bool_decide as Hp; run; fields; rewrite Hcon; run; fields;
    rewrite lookup_insert_eq; run;
    (eexists; split; [reflexivity|]); fields; split_and!; try done.
  apply leibniz_equiv. intros x. rewrite elem_of_union, elem_of_singleton.
  split; [by right|]. by intros [->|].
Qed.

Lemma ensure_session_fresh (env : Env) (c u : string) (r : Remote)
    (st : WhatsAPIDriverStatus) (s : State) :
  drivers s !! c = None → SELENIUM env = Some u →
  connect env c (constructed s) = Some r →
  get_status_reply r = Some st → is_live_status st = true →
  let d := {| serial := constructed s; username := c;
              profile := FIREFOX_CACHE_PATH ++ c; remote := r |} in
  ∃ s1 t, ensure_session env c s = Done tt s1 ∧
          drivers s1 = <[c := d]> (drivers s) ∧
          semaphores s1 = semaphores s ∧
          profiles s1 = {[ FIREFOX_CACHE_PATH ++ c ]} ∪ profiles s ∧
          constructed s1 = S (constructed s) ∧
          trace s1 = EvCommand (constructed s) CmdGetStatus
                     :: EvConstruct (constructed s) c :: trace s ∧
          g s1 = {| g_client_id := g_client_id (g s); g_driver := Some d;
                    g_driver_status := Some st |} ∧
          timers s1 = <[c := Some t]> (timers s) ∧ is_running t = true.
Proof.
  intros Hd Hsel Hcon Hst Hlive d.
  destruct (init_client_fresh env c u r s Hd Hsel Hcon)
    as (s0 & Hinit & H0d & H0t & H0s & H0p & H0c & H0tr & H0g).
  fold d in Hinit, H0d.
  unfold ensure_session. run.
  rewrite dom_lookup_bool, Hd, bool_decide_eq_false_2 by (by intros [? ?]).
  rewrite Hinit.
  unfold drivers_get, drivers_set, set_g_driver, set_g_driver_status,
    drv_get_status, command. run. fields.
  rewrite lookup_insert_eq. run. fields.
  change (get_status_reply (remote d)) with (get_status_reply r).
  rewrite Hst. run. rewrite Hlive. run.
  match goal with
  | |- context [init_timer c ?sa] =>
      destruct (init_timer_running_aux c sa) as (t & -> & Hr & _)
  end.
  eexists _, t. split; [reflexivity|]. fields.
  rewrite H0d, H0t, H0s, H0p, H0c, H0tr, H0g, insert_insert_eq.
  by split_and!.
Qed.

(** A request for a client with a live session and a free lock passes the
    gate: the lock is taken, the status is asked once, nothing is
    constructed, the registry is as it was, the client's timer is running
    and [g] carries the handle and its status.  The post-request hook then
    puts the lock table back exactly as it was before the request. *)
Theorem request_on_live_session (env : Env) (request : Request)
    (rule parent c : string) (d : WhatsAPIDriver)
    (st : WhatsAPIDriverStatus) (n : nat) (s : State) :
  url_rule request = Some rule → rule_parent_of rule = Some parent →
  parent ≠ "admin" → header_client_id request = Some c → c ≠ "" →
  auth_rejected env (header_auth_key request) = false →
  logger s = true ∨ log_dir_ok env = true →
  drivers s !! c = Some d → get_status_reply (remote d) = Some st →
  is_live_status st = true →
  semaphores s !! c = Some (Some (S n)) →
  ∃ s1 t, before_request env request s = Done tt s1 ∧
          drivers s1 = drivers s ∧ constructed s1 = constructed s ∧
          semaphores s1 = <[c := Some n]> (semaphores s) ∧
          g s1 = {| g_client_id := Some (Some c); g_driver := Some d;
                    g_driver_status := Some st |} ∧
          trace s1 = EvCommand (serial d) CmdGetStatus
                     :: EvAcquire c 10 true :: trace s ∧
          timers s1 = <[c := Some t]> (timers s) ∧ is_running t = true ∧
          ∀ resp : Response,
            ∃ s2, after_request resp s1 = Done resp s2 ∧
                  semaphores s2 = semaphores s ∧ drivers s2 = drivers s ∧
                  timers s2 = timers s1.
Proof.
  intros Hrule Hparent Hadm Hid Hc Hauth Hlog Hd Hst Hlive Hsem.
  destruct (before_request_admitted env request rule parent c s
              Hrule Hparent Hadm Hid Hc Hauth Hlog)
    as (s0 & -> & H0d & H0t & H0s & H0p & H0c & H0tr & H0g).
  unfold bind.
  rewrite (acquire_semaphore_free c false n s0 Hc) by (by rewrite H0s).
  match goal with
  | |- context [ensure_session env c ?sa] =>
      destruct (ensure_session_live env c d st sa)
        as (s1 & t & -> & H1d & H1s & H1p & H1c & H1tr & H1g & H1t & Hr & _);
      [fields; by rewrite H0d | done | done |]
  end.
  cbn in H1d, H1s, H1c, H1tr, H1g, H1t.
  exists s1, t. split; [done|].
  rewrite H1d, H1c, H1s, H1tr, H1g, H1t, H0d, H0c, H0s, H0tr, H0g, H0t.
  split_and!; try done.
  intros resp. unfold after_request. run. rewrite H1g. cbn [g_client_id].
  rewrite H0g, (truthy_Some c Hc). run.
  rewrite (release_semaphore_present c n s1 Hc)
    by (by rewrite H1s, H0s, lookup_insert_eq).
  eexists. split; [reflexivity|]. fields.
  rewrite H1s, H1d, H0s, H0d, insert_insert_eq.
  split_and!; try done; [by apply insert_id | by rewrite H1t, H0t].
Qed.

Lemma request_on_live_session_witness :
  ∃ s1 t, before_request Fixtures.env0 (Fixtures.client_request "/chats" "a")
            (Fixtures.st_one Fixtures.r_logged_in 1) = Done tt s1 ∧
          drivers s1 = drivers (Fixtures.st_one Fixtures.r_logged_in 1) ∧
          timers s1 = <["a" := Some t]>
                        (timers (Fixtures.st_one Fixtures.r_logged_in 1)).
Proof.
  destruct (request_on_live_session Fixtures.env0
              (Fixtures.client_request "/chats" "a") "/chats" "chats" "a"
              (Fixtures.driver_of 0 "a" Fixtures.r_logged_in) LoggedIn 0
              (Fixtures.st_one Fixtures.r_logged_in 1))
    as (s1 & t & H & Hd & _ & _ & _ & _ & Ht & _);
    [reflexivity | reflexivity | discriminate | reflexivity | discriminate
    | reflexivity | by left | reflexivity | reflexivity | reflexivity
    | reflexivity |].
  by exists s1, t.
Defined.

(** The first request of a client that has neither a session nor a lock:
    the gate creates the lock and holds it, constructs exactly one driver,
    registers it, creates the profile directory, asks the status once, and
    starts a timer of period 2 (when the table held none). *)
Theorem first_request_creates_session (env : Env) (request : Request)
    (rule parent c u : string) (r : Remote) (st : WhatsAPIDriverStatus)
    (s : State) :
  url_rule request = Some rule → rule_parent_of rule = Some parent →
  parent ≠ "admin" → header_client_id request = Some c → c ≠ "" →
  auth_rejected env (header_auth_key request) = false →
  logger s = true ∨ log_dir_ok env = true →
  drivers s !! c = None → semaphores s !! c = None →
  SELENIUM env = Some u → connect env c (constructed s) = Some r →
  get_status_reply r = Some st → is_live_status st = true →
  let d := {| serial := constructed s; username := c;
              profile := FIREFOX_CACHE_PATH ++ c; remote := r |} in
  ∃ s1 t, before_request env request s = Done tt s1 ∧
          drivers s1 = <[c := d]> (drivers s) ∧
          semaphores s1 = <[c := Some 0]> (semaphores s) ∧
          constructed s1 = S (constructed s) ∧
          constructions (trace s1) = S (constructions (trace s)) ∧
          FIREFOX_CACHE_PATH ++ c ∈ profiles s1 ∧
          g_driver (g s1) = Some d ∧ g_driver_status (g s1) = Some st ∧
          timers s1 = <[c := Some t]> (timers s) ∧ is_running t = true.
Proof.
  intros Hrule Hparent Hadm Hid Hc Hauth Hlog Hd Hsem Hsel Hcon Hst Hlive d.
  destruct (before_request_admitted env request rule parent c s
              Hrule Hparent Hadm Hid Hc Hauth Hlog)
    as (s0 & -> & H0d & H0t & H0s & H0p & H0c & H0tr & H0g).
  unfold bind.
  rewrite (acquire_semaphore_absent c false s0 Hc) by (by rewrite H0s).
  match goal with
  | |- context [ensure_session env c ?sa] =>
      destruct (ensure_session_fresh env c u r st sa)
        as (s1 & t & -> & H1d & H1s & H1p & H1c & H1tr & H1g & H1t & Hr);
      [fields; by rewrite H0d | done | fields; by rewrite H0c | done | done |]
  end.
  cbn in H1d, H1s, H1p, H1c, H1tr, H1g, H1t.
  exists s1, t. split; [done|].
  rewrite H1d, H1s, H1c, H1tr, H1g, H1t, H1p, H0d, H0c, H0s, H0tr, H0t.
  split_and!; try done. apply elem_of_union. left. by apply elem_of_singleton.
Qed.

Lemma first_request_creates_session_witness :
  ∃ s1 t, before_request Fixtures.env0 (Fixtures.client_request "/chats" "n")
            Fixtures.st_two = Done tt s1 ∧
          constructed s1 = 3 ∧
          timers s1 = <["n" := Some t]> (timers Fixtures.st_two).
Proof.
  destruct (first_request_creates_session Fixtures.env0
              (Fixtures.client_request "/chats" "n") "/chats" "chats" "n"
              "http://hub:4444/wd/hub" Fixtures.r_logged_in LoggedIn
              Fixtures.st_two)
    as (s1 & t & H & _ & _ & Hc & _ & _ & _ & _ & Ht & _);
    [reflexivity | reflexivity | discriminate | reflexivity | discriminate
    | reflexivity | by left | reflexivity | reflexivity | reflexivity
    | reflexivity | reflexivity | reflexivity |].
  by exists s1, t.
Defined.

(** A request that the gate rejects, with 401 for a wrong key or with 400
    for a missing client id outside [/admin], has taken no lock, sent no
    command and constructed nothing, and the wrong key is reported even
    when the client id is missing too.  The post-request hook then still
    releases the lock of the client the rejected request names: the counter
    of that client's semaphore goes up by one. *)
Theorem rejected_request_takes_no_lock (env : Env) (request : Request)
    (rule parent : string) (code : nat) (s : State) :
  url_rule request = Some rule → rule_parent_of rule = Some parent →
  logger s = true ∨ log_dir_ok env = true →
  (auth_rejected env (header_auth_key request) = true ∧ code = 401) ∨
  (auth_rejected env (header_auth_key request) = false ∧
   truthy (header_client_id request) = false ∧ parent ≠ "admin" ∧
   code = 400) →
  ∃ s1, before_request env request s = Raise (HTTPException code) s1 ∧
        drivers s1 = drivers s ∧ timers s1 = timers s ∧
        semaphores s1 = semaphores s ∧ trace s1 = trace s ∧
        constructed s1 = constructed s ∧
        g_client_id (g s1) = Some (header_client_id request) ∧
        ∀ c n (resp : Response),
          header_client_id request = Some c → c ≠ "" →
          semaphores s !! c = Some (Some n) →
          ∃ s2, after_request resp s1 = Done resp s2 ∧
                semaphores s2 = <[c := Some (S n)]> (semaphores s).
Proof.
  intros Hrule Hparent Hlog Hwhy.
  assert (Hafter : ∀ s1, semaphores s1 = semaphores s →
            g_client_id (g s1) = Some (header_client_id request) →
            ∀ c n (resp : Response),
              header_client_id request = Some c → c ≠ "" →
              semaphores s !! c = Some (Some n) →
              ∃ s2, after_request resp s1 = Done resp s2 ∧
                    semaphores s2 = <[c := Some (S n)]> (semaphores s)).
  { intros s1 Hs Hg c n resp Hid Hc Hsem. unfold after_request. run.
    rewrite Hg, Hid, (truthy_Some c Hc). run.
    rewrite (release_semaphore_present c n s1 Hc) by (by rewrite Hs).
    eexists. split; [reflexivity|]. fields. by rewrite Hs. }
  unfold before_request, set_g_client_id, create_logger.
  rewrite Hrule, Hparent. run.
  destruct (logger s) eqn:Hl; run.
  - destruct Hwhy as [[Ha ->]|(Ha & Ht & Hadm & ->)]; rewrite Ha; run.
    + eexists. split; [reflexivity|]. fields. split_and!; try done.
      by apply Hafter.
    + apply String.eqb_neq in Hadm. rewrite Ht, Hadm. run.
      eexists. split; [reflexivity|]. fields. split_and!; try done.
      by apply Hafter.
  - destruct Hlog as [Hf|Hok]; [discriminate|]. rewrite Hok. run.
    destruct Hwhy as [[Ha ->]|(Ha & Ht & Hadm & ->)]; rewrite Ha; run.
    + eexists. split; [reflexivity|]. fields. split_and!; try done.
      by apply Hafter.
    + apply String.eqb_neq in Hadm. rewrite Ht, Hadm. run.
      eexists. split; [reflexivity|]. fields. split_and!; try done.
      by apply Hafter.
Qed.

Lemma rejected_request_takes_no_lock_witness :
  ∃ s1 s2,
    before_request
      {| API_KEY := Some "secret"; SELENIUM := None;
         connect := fun _ _ => None; log_dir_ok := true |}
      (Fixtures.client_request "/chats" "a")
      (Fixtures.st_one Fixtures.r_logged_in 0)
    = Raise (HTTPException 401) s1 ∧
    after_request JsonEmptyList s1 = Done JsonEmptyList s2 ∧
    semaphores s2 = <["a" := Some 1]>
                      (semaphores (Fixtures.st_one Fixtures.r_logged_in 0)).
Proof.
  destruct (rejected_request_takes_no_lock
              {| API_KEY := Some "secret"; SELENIUM := None;
                 connect := fun _ _ => None; log_dir_ok := true |}
              (Fixtures.client_request "/chats" "a") "/chats" "chats" 401
              (Fixtures.st_one Fixtures.r_logged_in 0))
    as (s1 & H & _ & _ & _ & _ & _ & _ & Hafter);
    [reflexivity | reflexivity | by left | by left |].
  destruct (Hafter "a" 0 JsonEmptyList) as (s2 & H2 & Hs);
    [reflexivity | discriminate | reflexivity |].
  by exists s1, s2.
Defined.

(** A view under [login_required], reached through the gate by a client
    with a live session and a free lock, runs exactly when the driver's
    status is [LoggedIn]; for [NotLoggedIn] the caller gets the error
    response and the view is not run. *)
Theorem login_required_runs_view_iff_logged_in (env : Env)
    (request : Request) (rule parent c : string) (d : WhatsAPIDriver)
    (st : WhatsAPIDriverStatus) (n : nat) (f : M Response) (s : State) :
  url_rule request = Some rule → rule_parent_of rule = Some parent →
  parent ≠ "admin" → header_client_id request = Some c → c ≠ "" →
  auth_rejected env (header_auth_key request) = false →
  logger s = true ∨ log_dir_ok env = true →
  drivers s !! c = Some d → get_status_reply (remote d) = Some st →
  is_live_status st = true →
  semaphores s !! c = Some (Some (S n)) →
  ∃ s1, before_request env request s = Done tt s1 ∧
        (before_request env request ;;; login_required f) s =
        (if bool_decide (st = LoggedIn) then f s1
         else Done (JsonError "client is not logged in") s1).
Proof.
  intros Hrule Hparent Hadm Hid Hc Hauth Hlog Hd Hst Hlive Hsem.
  destruct (before_request_admitted env request rule parent c s
              Hrule Hparent Hadm Hid Hc Hauth Hlog)
    as (s0 & Hb & H0d & _ & H0s & _).
  unfold bind. rewrite Hb. unfold bind.
  rewrite (acquire_semaphore_free c false n s0 Hc) by (by rewrite H0s).
  match goal with
  | |- context [ensure_session env c ?sa] =>
      destruct (ensure_session_live env c d st sa)
        as (s1 & t & -> & _ & _ & _ & _ & _ & H1g & _);
      [fields; by rewrite H0d | done | done |]
  end.
  exists s1. split; [done|].
  unfold login_required. run. rewrite H1g. cbn [g_driver_status].
  by destruct (bool_decide (st = LoggedIn)).
Qed.

Lemma login_required_runs_view_iff_logged_in_witness :
  ∃ s1, (before_request Fixtures.env0 (Fixtures.client_request "/chats" "b")
           ;;; login_required (Fixtures.view_stub (Some "b"))) Fixtures.st_two
        = Done (JsonError "client is not logged in") s1.
Proof.
  destruct (login_required_runs_view_iff_logged_in Fixtures.env0
              (Fixtures.client_request "/chats" "b") "/chats" "chats" "b"
              (Fixtures.driver_of 1 "b" Fixtures.r_qr) NotLoggedIn 0
              (Fixtures.view_stub (Some "b")) Fixtures.st_two)
    as (s1 & _ & H);
    [reflexivity | reflexivity | discriminate | reflexivity | discriminate
    | reflexivity | by left | reflexivity | reflexivity | reflexivity
    | reflexivity |].
  by exists s1.
Defined.

(** ** AdminOperations: forced creation *)

Lemma init_client_frame (env : Env) (c : string) (s : State) :
  let s' := final (init_client env c s) in
  timers s' = timers s ∧ semaphores s' = semaphores s ∧
  (∀ k, k ≠ c → drivers s' !! k = drivers s !! k) ∧
  (∀ d, drivers s !! c = Some d → drivers s' !! c = Some d).
Proof.
  cbn zeta. destruct (init_client env c s) as [d s1|e s1] eqn:H; cbn [final].
  - destruct (drivers s !! c) as [d0|] eqn:Hd.
    + rewrite (init_client_registered env c d0 s Hd) in H.
      injection H as <- <-. split_and!; try done. by intros d [= <-].
    + revert H. unfold init_client, init_driver, drivers_set, drivers_get. run.
      rewrite dom_lookup_bool, Hd, bool_decide_eq_false_2 by (by intros [? ?]).
      case_bool_decide; run;
        (destruct (SELENIUM env); run; [|done]);
        (destruct (connect env c _); run; [|done]);
        fields; rewrite lookup_insert_eq; intros [= <- <-]; fields;
        (split_and!; try done; intros k Hk; by rewrite lookup_insert_ne).
  - destruct (init_client_failure_registers_nothing_aux env c e s s1 H)
      as (-> & _ & -> & -> ). by split_and!.
Qed.

Lemma keeps_sessions_refl (s : State) : keeps_sessions s s.
Proof. by split. Qed.

Lemma keeps_sessions_trans (s1 s2 s3 : State) :
  keeps_sessions s1 s2 → keeps_sessions s2 s3 → keeps_sessions s1 s3.
Proof.
  intros [Hs12 Hd12] [Hs23 Hd23]. split; [congruence|].
  intros k d Hd. destruct (Hd12 k d Hd) as [Hd2 Ht2].
  destruct (Hd23 k d Hd2) as [Hd3 Ht3]. split; [done|congruence].
Qed.

Lemma keeps_sessions_events (new : list Event) (s : State) :
  keeps_sessions s (with_events new s).
Proof.
  destruct (with_events_tables new s) as (Hd & Ht & Hs & _).
  split; [done|]. intros k d H. by rewrite Hd, Ht.
Qed.

(** Registering a client that had no session keeps every other session. *)
Lemma register_keeps_sessions (env : Env) (c : string) (s : State) :
  drivers s !! c = None →
  keeps_sessions s (final ((init_client env c ;;; init_timer c) s)) ∧
  (∀ r s', (init_client env c ;;; init_timer c) s = Done r s' →
           is_Some (drivers s' !! c)).
Proof.
  intros Hnone. unfold bind.
  pose proof (init_client_frame env c s) as Hfr. cbn zeta in Hfr.
  destruct (init_client env c s) as [d s1|e s1] eqn:Hinit; cbn [final] in Hfr;
    destruct Hfr as (Ht & Hs & Hoth & _).
  - destruct (init_timer_running_aux c s1) as (t & -> & _). cbn [final].
    destruct (init_client_stores env c d s s1 Hinit) as [Hd1 _].
    split.
    + split; [done|]. intros k d0 Hk. fields.
      assert (k ≠ c) as Hne by (intros ->; congruence).
      by rewrite (Hoth k Hne), lookup_insert_ne, Ht.
    + intros r s' [= _ <-]. fields. by eexists.
  - split; [|done]. cbn [final]. split; [done|]. intros k d0 Hk.
    assert (k ≠ c) as Hne by (intros ->; congruence).
    by rewrite (Hoth k Hne), Ht.
Qed.

Lemma run_loop_cons (env : Env) (c : string) (ids : list string)
    (res : list (string * option ClientInfo)) (s : State) :
  run_loop env (c :: ids) res s =
  match (if bool_decide (c ∈ dom (drivers s)) then Done tt s
         else (init_client env c ;;; init_timer c) s) with
  | Done _ s1 =>
      match get_client_info c s1 with
      | Done i s2 => run_loop env ids (dict_set c i res) s2
      | Raise e s2 => Raise e s2
      end
  | Raise e s1 => Raise e s1
  end.
Proof.
  cbn [run_loop]. unfold bind at 1, get_state at 1. unfold bind at 1.
  case_bool_decide; [done|].
  destruct ((init_client env c ;;; init_timer c) s); [|done].
  unfold bind at 1. by destruct (get_client_info c s0).
Qed.

Lemma run_loop_keeps_sessions (env : Env) (ids : list string)
    (res : list (string * option ClientInfo)) (s : State) :
  keeps_sessions s (final (run_loop env ids res s)) ∧
  (∀ r s', run_loop env ids res s = Done r s' →
           ∀ c, c ∈ ids → is_Some (drivers s' !! c)).
Proof.
  revert res s. induction ids as [|c ids IH]; intros res s.
  { split; [apply keeps_sessions_refl|]. intros r s' _ c Hc.
    by apply elem_of_nil in Hc. }
  rewrite run_loop_cons.
  assert (Hstep : ∀ s1 d1,
    keeps_sessions s s1 → drivers s1 !! c = Some d1 →
    keeps_sessions s
      (final match get_client_info c s1 with
             | Done i s2 => run_loop env ids (dict_set c i res) s2
             | Raise e s2 => Raise e s2
             end) ∧
    (∀ r s', match get_client_info c s1 with
             | Done i s2 => run_loop env ids (dict_set c i res) s2
             | Raise e s2 => Raise e s2
             end = Done r s' →
             ∀ c', c' ∈ c :: ids → is_Some (drivers s' !! c'))).
  { intros s1 d1 Hkeep Hd1.
    destruct (get_client_info_frame c s1) as (new & Hfin & _).
    destruct (get_client_info c s1) as [i s2|e s2]; cbn in Hfin; subst s2.
    - destruct (IH (dict_set c i res) (with_events new s1)) as [Hk Hreg].
      split.
      + eapply keeps_sessions_trans; [exact Hkeep|].
        eapply keeps_sessions_trans; [apply (keeps_sessions_events new)|done].
      + intros r s' Hrun c' Hc'. apply elem_of_cons in Hc' as [->|Hc'];
          [|by apply (Hreg r s' Hrun)].
        destruct Hk as [_ Hk]. rewrite Hrun in Hk. cbn [final] in Hk.
        destruct (Hk c d1) as [-> _]; [|by eexists].
        destruct (with_events_tables new s1) as (-> & _). done.
    - split; [|done]. cbn [final].
      eapply keeps_sessions_trans; [exact Hkeep|].
      apply keeps_sessions_events. }
  rewrite dom_lookup_bool.
  destruct (drivers s !! c) as [d|] eqn:Hd.
  - rewrite bool_decide_eq_true_2 by (by eexists).
    by apply (Hstep s d); [apply keeps_sessions_refl|].
  - rewrite bool_decide_eq_false_2 by (by intros [? ?]).
    destruct (register_keeps_sessions env c s Hd) as [Hkeep Hreg1].
    destruct ((init_client env c ;;; init_timer c) s) as [[] s1|e s1] eqn:Hr1;
      cbn [final] in Hkeep; [|by split].
    destruct (Hreg1 tt s1 eq_refl) as [d1 Hd1].
    by apply (Hstep s1 d1).
Qed.

(** [run_clients]: without a [clients] field, or with an empty one, it
    answers the error and changes nothing.  Whatever it is given and
    however it ends, it never touches the lock table, and every client that
    had a session keeps its handle and its timer entry (nothing is
    constructed for it, and a stopped timer is not started).  When it
    returns its report, every id of the comma-separated list has a
    session. *)
Theorem run_clients_keeps_sessions (env : Env) (form_clients : option string)
    (s : State) :
  (truthy form_clients = false →
   run_clients env form_clients s = Done (JsonError "no clients provided") s) ∧
  keeps_sessions s (final (run_clients env form_clients s)) ∧
  (∀ cs l s', form_clients = Some cs →
              run_clients env form_clients s = Done (JsonClients l) s' →
              ∀ c, c ∈ split ","%char cs → is_Some (drivers s' !! c)).
Proof.
  unfold run_clients. split_and!.
  - intros Hf. destruct form_clients as [cs|]; [|done]. by rewrite Hf.
  - destruct form_clients as [cs|]; [|apply keeps_sessions_refl].
    destruct (truthy (Some cs)); [|apply keeps_sessions_refl].
    cbn [negb]. unfold bind.
    destruct (run_loop_keeps_sessions env (split ","%char cs) [] s) as [Hk _].
    by destruct (run_loop env (split ","%char cs) [] s).
  - intros cs l s' ->. destruct (truthy (Some cs)); [|done].
    cbn [negb]. unfold bind.
    destruct (run_loop_keeps_sessions env (split ","%char cs) [] s) as [_ Hreg].
    destruct (run_loop env (split ","%char cs) [] s) as [r s1|e s1]; [|done].
    run. intros [= <- <-]. by apply (Hreg r s1).
Qed.

Lemma run_clients_keeps_sessions_witness :
  run_clients Fixtures.env0 (Some "") Fixtures.st_two
  = Done (JsonError "no clients provided") Fixtures.st_two ∧
  ∃ l s', run_clients Fixtures.env0 (Some "a,n") Fixtures.st_two
          = Done (JsonClients l) s' ∧
          is_Some (drivers s' !! "n").
Proof.
  split.
  - apply (run_clients_keeps_sessions Fixtures.env0 (Some "") Fixtures.st_two).
    reflexivity.
  - assert (H : ∃ l s', run_clients Fixtures.env0 (Some "a,n") Fixtures.st_two
                        = Done (JsonClients l) s').
    { eexists _, _. vm_compute. reflexivity. }
    destruct H as (l & s' & H). exists l, s'. split; [exact H|].
    apply (proj2 (proj2 (run_clients_keeps_sessions Fixtures.env0
                           (Some "a,n") Fixtures.st_two)) "a,n" l s' eq_refl H).
    vm_compute. apply elem_of_cons. right. apply elem_of_cons. by left.
Defined.

(** ** AdminOperations: forced removal by id *)

Lemma split_from_nonempty (sep : Ascii.ascii) (cur s : string) :
  split_from sep cur s ≠ [].
Proof.
  revert cur. induction s as [|ch rest IH]; intros cur; cbn; [done|].
  destruct (Ascii.eqb ch sep); [done|apply IH].
Qed.

Lemma get_active_clients_result (s : State) (r : Response) (s' : State) :
  get_active_clients s = Done r s' →
  r = JsonEmptyList ∨ ∃ l, r = JsonClients l.
Proof.
  unfold get_active_clients. run.
  destruct (drivers_keys s); [intros [= <- _]; by left|].
  destruct (client_infos _ s); [|done]. intros [= <- _]. right. by eexists.
Qed.

(** [kill_clients] never answers "no clients provided": without a [clients]
    field the view raises [AttributeError] before doing anything, and with
    one, whatever it holds, the sweep runs and the answer, when there is
    one, is the list of the remaining clients. *)
Theorem kill_clients_never_reports_missing_clients
    (form_clients arg_kill_dead : option string) (s : State) :
  (form_clients = None →
   kill_clients form_clients arg_kill_dead s = Raise AttributeError s) ∧
  (∀ r s', kill_clients form_clients arg_kill_dead s = Done r s' →
           r = JsonEmptyList ∨ ∃ l, r = JsonClients l).
Proof.
  split; [by intros ->|].
  intros r s'. unfold kill_clients. destruct form_clients as [cs|]; [|done].
  rewrite (bool_decide_eq_false_2 (split ","%char cs = []))
    by apply split_from_nonempty.
  rewrite andb_false_r. unfold bind, get_state.
  destruct (kill_loop _ _ _ s) as [[] s1|e s1]; [|done].
  apply get_active_clients_result.
Qed.

Lemma kill_clients_never_reports_missing_clients_witness :
  kill_clients None (Some "true") Fixtures.st_two
  = Raise AttributeError Fixtures.st_two.
Proof.
  apply (kill_clients_never_reports_missing_clients None (Some "true")
           Fixtures.st_two). reflexivity.
Defined.





(** ** Input validation *)

Lemma rpartition_None (sep : Ascii.ascii) (s : string) :
  rpartition sep s = None ↔ str_contains sep s = false.
Proof.
  induction s as [|c rest IH]; cbn; [done|].
  destruct (rpartition sep rest) as [[b a]|].
  - split; [done|]. intros H. apply orb_false_iff in H as [_ H].
    apply IH in H. discriminate.
  - destruct (Ascii.eqb c sep); cbn; [done|]. split; [|done].
    intros _. by apply IH.
Qed.

Lemma rpartition_Some (sep : Ascii.ascii) (s before after : string) :
  rpartition sep s = Some (before, after) ↔
  s = (before ++ String sep after)%string ∧ str_contains sep after = false.
Proof.
  revert before. induction s as [|c rest IH]; intros before; cbn.
  { split; [done|]. intros [H _]. by destruct before. }
  destruct (rpartition sep rest) as [[b a]|] eqn:Hr.
  - split.
    + intros [= <- <-]. destruct (proj1 (IH b) eq_refl) as [-> Ha]. by split.
    + intros [Hs Ha]. destruct before as [|c' before']; cbn in Hs.
      * injection Hs as -> ->. apply rpartition_None in Ha. congruence.
      * injection Hs as -> Hs.
        by injection (proj2 (IH before') (conj Hs Ha)) as -> ->.
  - destruct (Ascii.eqb c sep) eqn:Hc.
    + apply Ascii.eqb_eq in Hc as ->. split.
      * intros [= <- <-]. split; [done|]. by apply rpartition_None.
      * intros [Hs Ha]. destruct before as [|c' before']; cbn in Hs.
        -- by injection Hs as ->.
        -- injection Hs as -> Hs.
           by pose proof (proj2 (IH before') (conj Hs Ha)).
    + split; [done|]. intros [Hs Ha].
      destruct before as [|c' before']; cbn in Hs.
      * injection Hs as -> _. by apply Ascii.eqb_neq in Hc.
      * injection Hs as -> Hs.
        by pose proof (proj2 (IH before') (conj Hs Ha)).
Qed.

Lemma str_contains_app (sep : Ascii.ascii) (a b : string) :
  str_contains sep (a ++ String sep b)%string = true.
Proof.
  induction a as [|c a IH].
  - change (Ascii.eqb sep sep || str_contains sep b = true).
    by rewrite (proj2 (Ascii.eqb_eq sep sep) eq_refl).
  - change (Ascii.eqb c sep || str_contains sep (a ++ String sep b)%string
            = true).
    by rewrite IH, orb_true_r.
Qed.

(** [allowed_file] accepts a name exactly when it ends in a dot followed by
    an extension without a dot whose lower-case form is in
    [ALLOWED_EXTENSIONS]: only what follows the last dot counts, letter case
    does not, and a name without a dot is refused. *)
Theorem allowed_file_iff (filename : string) :
  allowed_file filename = true ↔
  ∃ name ext, filename = (name ++ String "."%char ext)%string ∧
              str_contains "."%char ext = false ∧
              lower ext ∈ ALLOWED_EXTENSIONS.
Proof.
  unfold allowed_file, rsplit1. split.
  - intros H. apply andb_true_iff in H as [_ H].
    destruct (rpartition "."%char filename) as [[b a]|] eqn:Hr; [|done].
    cbn in H. apply bool_decide_eq_true in H.
    apply rpartition_Some in Hr as [-> Ha]. by exists b, a.
  - intros (name & ext & -> & Hext & Hin).
    rewrite str_contains_app. cbn [andb].
    rewrite (proj2 (rpartition_Some "."%char _ name ext) (conj eq_refl Hext)).
    cbn. by apply bool_decide_eq_true.
Qed.

Lemma allowed_file_iff_witness :
  allowed_file "holiday.2019.JPG" = true ∧ allowed_file "notes.pdf.exe" = false.
Proof.
  split.
  - apply allowed_file_iff. exists "holiday.2019", "JPG".
    split_and!; [reflexivity | reflexivity |].
    vm_compute. apply elem_of_cons. right. apply elem_of_cons. right.
    apply elem_of_cons. right. apply elem_of_cons. by left.
  - reflexivity.
Defined.

Lemma digits_only_idem (s : string) : digits_only (digits_only s) = digits_only s.
Proof.
  induction s as [|c rest IH]; [done|].
  cbn [digits_only]. destruct (is_digit c) eqn:Hc; [|done].
  cbn [digits_only]. by rewrite Hc, IH.
Qed.

(** The phone number that [new_chat] hands to the driver is the input with
    every character but the ASCII digits removed; it is never empty and
    never starts with [0], the store is untouched, and a number that has
    been accepted is accepted again unchanged.  A number that is not empty
    but holds no digit makes the view raise [IndexError] where a 400 would
    be expected. *)
Theorem new_chat_number_result (number : option string) (s : State) :
  (∀ r s', new_chat_number number s = Done r s' →
           s' = s ∧ (∃ raw, number = Some raw ∧ r = digits_only raw) ∧
           digits_only r = r ∧
           (∃ ch rest, r = String ch rest ∧ ch ≠ "0"%char) ∧
           new_chat_number (Some r) s = Done r s) ∧
  (∀ raw, number = Some raw → raw ≠ "" → digits_only raw = "" →
          new_chat_number number s = Raise IndexError s).
Proof.
  split.
  - intros r s'. unfold new_chat_number at 1.
    destruct number as [raw|]; [|done].
    destruct (negb (truthy (Some raw))); [done|].
    destruct (digits_only raw) as [|ch rest] eqn:Hd; [done|].
    destruct (Ascii.eqb ch "0"%char) eqn:Hz; [done|]. run.
    intros [= <- <-].
    assert (Hidem : digits_only (String ch rest) = String ch rest).
    { rewrite <- Hd. apply digits_only_idem. }
    split_and!; try done.
    + by exists raw.
    + exists ch, rest. split; [done|]. by apply Ascii.eqb_neq.
    + unfold new_chat_number. cbn [truthy String.eqb negb].
      rewrite Hidem, Hz. done.
  - intros raw -> Hne Hd. unfold new_chat_number.
    rewrite (truthy_Some raw Hne), Hd. done.
Qed.

Lemma new_chat_number_result_witness :
  new_chat_number (Some "+49 (170) 55-01") Fixtures.st_empty
  = Done "491705501" Fixtures.st_empty ∧
  new_chat_number (Some "491705501") Fixtures.st_empty
  = Done "491705501" Fixtures.st_empty ∧
  new_chat_number (Some "n/a") Fixtures.st_empty
  = Raise IndexError Fixtures.st_empty.
Proof.
  assert (H : new_chat_number (Some "+49 (170) 55-01") Fixtures.st_empty
              = Done "491705501" Fixtures.st_empty) by reflexivity.
  split_and!.
  - exact H.
  - by destruct (proj1 (new_chat_number_result (Some "+49 (170) 55-01")
                          Fixtures.st_empty) _ _ H) as (_ & _ & _ & _ & ?).
  - by apply (proj2 (new_chat_number_result (Some "n/a") Fixtures.st_empty)
                "n/a").
Defined.
